(** * ReInspect accuracy statistics ([fc_statistic.py])

    A shallow embedding of the geometry primitive [overlap_union] and of
    [get_accuracy] (grid decoder and accuracy evaluator) of
    [src/fc_statistic.py], with the properties stated about them.

    Conventions of the embedding.

    - The file is Python 2 (generators are advanced with [.next()], lines
      285 and 297, and there is no [from __future__ import division]):
      [a / b] on two [int]s is floor division, and true division as soon
      as one operand is a [float].  Numbers are therefore tagged values
      [num]: [PyInt z] or [PyFloat q].
    - Floating point values are idealised as exact rationals [Q]: rounding,
      overflow, underflow and NaN are not modelled.  Equality of floats is
      [Qeq] ([==]).
    - An exception is the [Raise] branch of [result]; the first exception
      raised aborts the computation, as in Python. *)

From Stdlib Require Import ZArith QArith Qminmax Qround Qabs List Bool Lia Lqa.
Import ListNotations.

Local Open Scope Z_scope.
Local Open Scope Q_scope.

(** ** Exceptions *)

Inductive exn : Type :=
| ZeroDivisionError
| IndexError.

Inductive result (A : Type) : Type :=
| Ok (a : A)
| Raise (e : exn).

Arguments Ok {A} a.
Arguments Raise {A} e.

Definition bind {A B : Type} (m : result A) (k : A -> result B) : result B :=
  match m with
  | Ok a => k a
  | Raise e => Raise e
  end.

Notation "x <- m ;; k" := (bind m (fun x => k))
  (at level 61, m at next level, right associativity).

(** ** Python numbers *)

Inductive num : Type :=
| PyInt (z : Z)
| PyFloat (q : Q).

(** The rational value of a number. *)
Definition val (a : num) : Q :=
  match a with
  | PyInt z => inject_Z z
  | PyFloat q => q
  end.

Definition py_add (a b : num) : num :=
  match a, b with
  | PyInt x, PyInt y => PyInt (x + y)
  | _, _ => PyFloat (val a + val b)
  end.

Definition py_mul (a b : num) : num :=
  match a, b with
  | PyInt x, PyInt y => PyInt (x * y)
  | _, _ => PyFloat (val a * val b)
  end.

(** [a / b] of Python 2: floor division on two ints, true division
    otherwise; a zero divisor raises. *)
Definition py_div (a b : num) : result num :=
  match a, b with
  | PyInt x, PyInt y =>
      if (y =? 0)%Z then Raise ZeroDivisionError else Ok (PyInt (x / y))
  | _, _ =>
      if Qeq_bool (val b) 0 then Raise ZeroDivisionError
      else Ok (PyFloat (val a / val b))
  end.

(** [a % b] on ints. *)
Definition py_mod (x y : Z) : result Z :=
  if (y =? 0)%Z then Raise ZeroDivisionError else Ok (x mod y)%Z.

(** [int(v)] on a float: truncation toward zero. *)
Definition py_int (q : Q) : Z := Z.quot (Qnum q) (Zpos (Qden q)).

(** [range(n)]. *)
Definition py_range (n : Z) : list Z := map Z.of_nat (seq 0 (Z.to_nat n)).

(** Python sequence indexing [l[i]]: negative indices count from the end. *)
Definition py_index (len : nat) (i : Z) : result nat :=
  let n := Z.of_nat len in
  if ((0 <=? i) && (i <? n))%Z then Ok (Z.to_nat i)
  else if ((- n <=? i) && (i <? 0))%Z then Ok (Z.to_nat (n + i))
  else Raise IndexError.

Definition py_get {A : Type} (l : list A) (i : Z) : result A :=
  j <- py_index (length l) i ;;
  match nth_error l j with
  | Some a => Ok a
  | None => Raise IndexError
  end.

(** ** Geometry: [overlap_union] (lines 22-25)

    [SU] carries [+ 0.0], so it is a float whatever the arguments are and
    [SI/SU] is a true division; [min], [max], [+], [-] and [*] agree on
    ints and floats in value.  The function is therefore modelled on the
    rational values of its arguments. *)

Definition overlap_SI (x1 y1 x2 y2 x3 y3 x4 y4 : Q) : Q :=
  Qmax 0 (Qmin x2 x4 - Qmax x1 x3) * Qmax 0 (Qmin y2 y4 - Qmax y1 y3).

Definition overlap_SU (x1 y1 x2 y2 x3 y3 x4 y4 : Q) : Q :=
  (x2 - x1) * (y2 - y1) + (x4 - x3) * (y4 - y3)
  - overlap_SI x1 y1 x2 y2 x3 y3 x4 y4 + 0.

(** Float division [a / b]. *)
Definition float_div (a b : Q) : result Q :=
  if Qeq_bool b 0 then Raise ZeroDivisionError else Ok (a / b).

Definition overlap_union (x1 y1 x2 y2 x3 y3 x4 y4 : Q) : result Q :=
  let SI := overlap_SI x1 y1 x2 y2 x3 y3 x4 y4 in
  let SU := overlap_SU x1 y1 x2 y2 x3 y3 x4 y4 in
  float_div SI SU.

(** ** Data model *)

(** Modelled from the spec: class [Rect] is imported from [utils] and is not
    part of the source file.  Section 3 of the specification gives its
    fields: center (cx, cy), width, height, confidence and the consolidated
    score [true_confidence] that the stitcher sets; the constructor takes
    the first five (line 47), and a fresh rectangle carries its raw
    confidence as consolidated score. *)
Record Rect : Type := mkRect {
  cx : num;
  cy : num;
  width : num;
  height : num;
  confidence : num;
  true_confidence : num
}.

Definition Rect_init (cx cy w h conf : num) : Rect :=
  mkRect cx cy w h conf conf.

(** A ground-truth rectangle of [inputs['anno']], in corner form
    (fields read at line 60). *)
Module Anno.
Record t : Type := mk { x1 : num; y1 : num; x2 : num; y2 : num }.
End Anno.

(** The entries of [net_config] that [get_accuracy] reads.  The grid
    dimensions are arguments of [range], hence ints. *)
Record NetConfig : Type := mkNetConfig {
  img_width : num;
  img_height : num;
  grid_width : Z;
  grid_height : Z
}.

(** [all_rects]: rows of cells, each cell a list of rectangles. *)
Definition grid : Type := list (list (list Rect)).

(** One step output of the network for the whole grid: [bbox_list[n]] has
    one 4x1x1 box per cell, [conf_list[n]] one 2x1x1 softmax output per
    cell; the trailing unit axes are flattened. *)
Definition step_bbox : Type := list (list Q).
Definition step_conf : Type := list (list Q).

(** ** Grid decoder (lines 33-47) *)

(** [int(v)] on a number. *)
Definition py_int_num (a : num) : Z :=
  match a with
  | PyInt z => z
  | PyFloat q => py_int q
  end.

(** Line 36. *)
Definition empty_grid (gw gh : Z) : grid :=
  map (fun _ => map (fun _ => []) (py_range gw)) (py_range gh).

Fixpoint list_set {A : Type} (l : list A) (i : nat) (a : A) : list A :=
  match l, i with
  | [], _ => []
  | _ :: t, O => a :: t
  | h :: t, S j => h :: list_set t j a
  end.

(** [all_rects[y][x].append(r)]. *)
Definition grid_append (g : grid) (y x : Z) (r : Rect) : result grid :=
  row <- py_get g y ;;
  cell <- py_get row x ;;
  iy <- py_index (length g) y ;;
  ix <- py_index (length row) x ;;
  Ok (list_set g iy (list_set row ix (cell ++ [r]))).

(** The cell base coordinate [pix_per/2 + pix_per*index] (lines 43, 44). *)
Definition cell_base (pix_per : num) (index : Z) : result num :=
  half <- py_div pix_per (PyInt 2) ;;
  Ok (py_add half (py_mul pix_per (PyInt index))).

(** Lines 43-47 for one cell: [bbox] is [bbox_list[n][k]], [conf_row] is
    [conf_list[n][k]]. *)
Definition decode_rect (pix_per_w pix_per_h : num) (x y : Z)
    (bbox conf_row : list Q) : result Rect :=
  conf <- py_get conf_row 1 ;;
  base_x <- cell_base pix_per_w x ;;
  dx <- py_get bbox 0 ;;
  let abs_cx := py_add base_x (PyInt (py_int dx)) in
  base_y <- cell_base pix_per_h y ;;
  dy <- py_get bbox 1 ;;
  let abs_cy := py_add base_y (PyInt (py_int dy)) in
  w <- py_get bbox 2 ;;
  h <- py_get bbox 3 ;;
  Ok (Rect_init abs_cx abs_cy (PyFloat w) (PyFloat h) (PyFloat conf)).

(** Lines 39-47: the body of the loop over [k]. *)
Definition decode_cell (pix_per_w pix_per_h : num) (gw : Z)
    (bbox_list : list step_bbox) (conf_list : list step_conf)
    (n k : Z) (all_rects : grid) : result grid :=
  yq <- py_div (PyInt k) (PyInt gw) ;;
  let y := py_int_num yq in
  x <- py_mod k gw ;;
  bbox_n <- py_get bbox_list n ;;
  bbox <- py_get bbox_n k ;;
  conf_n <- py_get conf_list n ;;
  conf_row <- py_get conf_n k ;;
  r <- decode_rect pix_per_w pix_per_h x y bbox conf_row ;;
  grid_append all_rects y x r.

(** A [for] loop whose body may raise. *)
Fixpoint for_each {A S : Type} (l : list A) (body : A -> S -> result S)
    (s : S) : result S :=
  match l with
  | [] => Ok s
  | a :: rest => s' <- body a s ;; for_each rest body s'
  end.

(** Lines 33-47. *)
Definition decode (net_config : NetConfig)
    (bbox_list : list step_bbox) (conf_list : list step_conf) : result grid :=
  let gw := grid_width net_config in
  let gh := grid_height net_config in
  pix_per_w <- py_div (img_width net_config) (PyInt gw) ;;
  pix_per_h <- py_div (img_height net_config) (PyInt gh) ;;
  for_each (py_range (Z.of_nat (length bbox_list)))
    (fun n => for_each (py_range (gh * gw))
       (decode_cell pix_per_w pix_per_h gw bbox_list conf_list n))
    (empty_grid gw gh).

(** ** Accuracy evaluator (lines 29-32 and 50-65) *)

(** [a < b] and [a >= b] on floats. *)
Definition float_lt (a b : Q) : bool := negb (Qle_bool b a).
Definition float_ge (a b : Q) : bool := Qle_bool b a.

(** Lines 30-32. *)
Definition count_anno (anno : list Anno.t) : Q :=
  fold_left (fun count _ => count + 1) anno 0.

(** Lines 59-63: the loop over the ground truth for one detection; the
    result tells whether [count_cover] was incremented (and the loop left
    by [break]). *)
Fixpoint anno_loop (x1 y1 x2 y2 : Q) (anno : list Anno.t) : result bool :=
  match anno with
  | [] => Ok false
  | r :: rest =>
      o_u <- overlap_union x1 y1 x2 y2
               (val (Anno.x1 r)) (val (Anno.y1 r))
               (val (Anno.x2 r)) (val (Anno.y2 r)) ;;
      if float_ge o_u (1 # 2) then Ok true
      else anno_loop x1 y1 x2 y2 rest
  end.

(** Lines 55-58: corner form of a detection. *)
Definition rect_x1 (rect : Rect) : Q := val (cx rect) - val (width rect) / 2.
Definition rect_x2 (rect : Rect) : Q := val (cx rect) + val (width rect) / 2.
Definition rect_y1 (rect : Rect) : Q := val (cy rect) - val (height rect) / 2.
Definition rect_y2 (rect : Rect) : Q := val (cy rect) + val (height rect) / 2.

(** The confidence threshold of line 52. *)
Definition conf_threshold : Q := 9 # 10.

Definition below_threshold (rect : Rect) : bool :=
  float_lt (val (true_confidence rect)) conf_threshold.

(** Lines 51-63. *)
Fixpoint rect_loop (acc_rects : list Rect) (anno : list Anno.t)
    (count_cover : Q) : result Q :=
  match acc_rects with
  | [] => Ok count_cover
  | rect :: rest =>
      if below_threshold rect then rect_loop rest anno count_cover
      else
        hit <- anno_loop (rect_x1 rect) (rect_y1 rect)
                 (rect_x2 rect) (rect_y2 rect) anno ;;
        rect_loop rest anno (if hit then count_cover + 1 else count_cover)
  end.

(** The evaluator: what [get_accuracy] computes from the stitched
    detections and the ground truth. *)
Definition evaluate (acc_rects : list Rect) (anno : list Anno.t)
    : result (Q * Q) :=
  let count := count_anno anno in
  count_cover <- rect_loop acc_rects anno 0 ;;
  Ok (count_cover, count).

(** ** [get_accuracy] (lines 27-65)

    The network ([forward]) and the stitcher ([stitch_rects], imported from
    [utils]) are outside the source file and are taken as parameters. *)
Section GetAccuracy.

Variables Net Inputs : Type.
Variable inputs_anno : Inputs -> list Anno.t.
Variable forward :
  Net -> Inputs -> NetConfig -> list step_bbox * list step_conf.
Variable stitch_rects : grid -> NetConfig -> list Rect.

Definition get_accuracy (net : Net) (inputs : Inputs)
    (net_config : NetConfig) : result (Q * Q) :=
  let '(bbox_list, conf_list) := forward net inputs net_config in
  let anno := inputs_anno inputs in
  let count := count_anno anno in
  all_rects <- decode net_config bbox_list conf_list ;;
  let acc_rects := stitch_rects all_rects net_config in
  count_cover <- rect_loop acc_rects anno 0 ;;
  Ok (count_cover, count).

End GetAccuracy.

(** ** Vocabulary of the statements

    The definitions below are not in the source; the properties are stated
    with them. *)


(** [true_confidence >= 0.9]: the detections the evaluator looks at. *)
Definition at_least_threshold (rect : Rect) : bool :=
  float_ge (val (true_confidence rect)) conf_threshold.

(** The position in [anno], counted from [i], of the first ground-truth
    box whose overlap with the detection is at least 0.5: the box at which
    the loop of lines 59-63 breaks. *)
Fixpoint first_match (x1 y1 x2 y2 : Q) (anno : list Anno.t) (i : nat)
    : result (option nat) :=
  match anno with
  | [] => Ok None
  | r :: rest =>
      o_u <- overlap_union x1 y1 x2 y2
               (val (Anno.x1 r)) (val (Anno.y1 r))
               (val (Anno.x2 r)) (val (Anno.y2 r)) ;;
      if float_ge o_u (1 # 2) then Ok (Some i)
      else first_match x1 y1 x2 y2 rest (S i)
  end.

(** The ground-truth boxes at which the detections at or above the
    threshold break the inner loop, in the order of the detections. *)
Fixpoint first_matches (acc_rects : list Rect) (anno : list Anno.t)
    : result (list nat) :=
  match acc_rects with
  | [] => Ok []
  | rect :: rest =>
      if below_threshold rect then first_matches rest anno
      else
        m <- first_match (rect_x1 rect) (rect_y1 rect)
               (rect_x2 rect) (rect_y2 rect) anno 0 ;;
        l <- first_matches rest anno ;;
        Ok (match m with Some i => i :: l | None => l end)
  end.

(** [pix_per/2] as Python 2 computes it: the floor of the half on an int,
    the exact half on a float. *)
Definition py_half (pix_per : num) : num :=
  match pix_per with
  | PyInt z => PyInt (z / 2)
  | PyFloat q => PyFloat (q / 2)
  end.


(** [t] is [q] rounded toward zero. *)
Definition truncation_of (q : Q) (t : Z) : Prop :=
  (0 <= q -> inject_Z t <= q /\ q < inject_Z t + 1) /\
  (q <= 0 -> q <= inject_Z t /\ inject_Z t - 1 < q).

(** The invariant of the data model on a detection: width and height
    are not negative. *)
Definition nonneg_size (rect : Rect) : Prop :=
  0 <= val (width rect) /\ 0 <= val (height rect).

(** A ground-truth box of positive width and height. *)
Definition positive_box (r : Anno.t) : Prop :=
  val (Anno.x1 r) < val (Anno.x2 r) /\ val (Anno.y1 r) < val (Anno.y2 r).

(** A count as a float. *)
Definition float_of_nat (n : nat) : Q := inject_Z (Z.of_nat n).

(** ** Vocabulary of the further properties *)

(** Two results agree: the same exception, or equal floats. *)
Definition result_Qeq (a b : result Q) : Prop :=
  match a, b with
  | Ok x, Ok y => x == y
  | Raise e, Raise e' => e = e'
  | _, _ => False
  end.



(** A grid of [gh] rows of [gw] cells. *)
Definition grid_shape (gw gh : Z) (g : grid) : Prop :=
  length g = Z.to_nat gh /\ Forall (fun row => length row = Z.to_nat gw) g.

(** The rectangle decoded at step [n] for the cell [(x, y)], whose data
    are the entries [k] of [bbox_list[n]] and [conf_list[n]]
    (lines 41-47). *)
Definition step_rect (pix_per_w pix_per_h : num)
    (bbox_list : list step_bbox) (conf_list : list step_conf)
    (x y k n : Z) : result Rect :=
  bbox_n <- py_get bbox_list n ;;
  bbox <- py_get bbox_n k ;;
  conf_n <- py_get conf_list n ;;
  conf_row <- py_get conf_n k ;;
  decode_rect pix_per_w pix_per_h x y bbox conf_row.


From Stdlib Require Import Permutation.




(** ** Network construction (lines 94-265)

    The layer classes and the net object come from [apollocaffe]; a layer
    is modelled by the arguments its constructor is given in the source,
    the net by the list of the layers forwarded so far and its blobs.
    What forwarding a layer does to the blobs, and the [numpy] array
    functions, are parameters. *)

From Stdlib Require String Ascii DecimalString DecimalZ.

Module Net.
Import String Ascii DecimalString DecimalZ.
Local Open Scope string_scope.

(** Exceptions of this part: those of the first part, [KeyError] of a
    dictionary or blob lookup, and whatever an external call raises. *)
Inductive failure : Type :=
| Builtin (e : exn)
| KeyError (key : string)
| External (msg : string).

Inductive outcome (A : Type) : Type :=
| Done (a : A)
| Fail (f : failure).

Arguments Done {A} a.
Arguments Fail {A} f.

(** ["%d" % z] on an int. *)
Definition fmt_d (z : Z) : string := NilZero.string_of_int (Z.to_int z).

(** [sub in s] on strings. *)
Fixpoint contains (sub s : string) : bool :=
  prefix sub s ||
  match s with
  | EmptyString => false
  | String _ s' => contains sub s'
  end.

(** [Filler(type, value)]. *)
Record Filler : Type := mkFiller { filler_type : string; filler_value : num }.

(** A layer object of [googlenet.googlenet_layers()]: the fields of its
    protobuf [p] that the source reads or writes; [g_lr_mult] lists
    [p.lr_mult] for [p] in [layer.p.param]. *)
Record GLayer : Type := mkGLayer {
  g_name : string;
  g_type : string;
  g_bottom : list string;
  g_top : list string;
  g_lr_mult : list Q
}.

(** The name prefixes of the layers of one step, and the names of the
    layers of a step. *)
Definition step_prefixes : list string :=
  "concat" :: "lstm" :: "dropout" :: "ip_conf" :: "ip_bbox_unscaled"
  :: "ip_bbox" :: "ip_soft_conf" :: nil.

Definition step_names (step : Z) : list string :=
  List.map (fun prefix => prefix ++ fmt_d step) step_prefixes.

(** The names of the layers [forward] builds once. *)
Definition fixed_names : list string :=
  "image" :: "post_fc7_conv" :: "lstm_fc7_conv" :: "lstm_input"
  :: "box_flags" :: "boxes" :: "lstm_hidden_seed" :: "lstm_mem_seed"
  :: "score_concat" :: "bbox_concat" :: "hungarian" :: "box_loss" :: nil.

(** The string starts with a digit or a sign. *)
Definition head_ok (s : string) : bool :=
  match s with
  | String c _ => (nat_of_ascii c <? 64)%nat
  | EmptyString => false
  end.

Section Layers.

Variable Array : Type.

(** The layers the source builds, with the arguments it passes. *)
Inductive layer : Type :=
| NumpyData (name : string) (data : Array)
| GoogleNet (l : GLayer)
| Convolution (name : string) (bottoms : list string)
    (param_lr_mults param_decay_mults : list Q) (num_output : Z)
    (kernel_dim : Z * Z) (weight_filler bias_filler : Filler)
| Power (name : string) (scale : Q) (bottoms : list string)
| Transpose (name : string) (bottoms : list string)
| Concat (name : string) (bottoms : list string) (concat_dim : option Z)
| LstmUnit (name : string) (num_cells : Z) (weight_filler : Filler)
    (tie_output_forget : option bool) (param_names bottoms tops : list string)
| Dropout (name : string) (dropout_ratio : num) (bottoms : list string)
| InnerProduct (name : string) (num_output : Z) (bottoms : list string)
    (output_4d : bool) (weight_filler : Filler)
| Softmax (name : string) (bottoms : list string)
| SoftmaxWithLoss (name : string) (bottoms : list string)
| HungarianLoss (name : string) (bottoms tops : list string)
    (loss_weight : num) (match_ratio : Q) (permute_matches : bool).

Definition layer_name (l : layer) : string :=
  match l with
  | NumpyData name _ => name
  | GoogleNet g => g_name g
  | Convolution name _ _ _ _ _ _ _ => name
  | Power name _ _ => name
  | Transpose name _ => name
  | Concat name _ _ => name
  | LstmUnit name _ _ _ _ _ _ => name
  | Dropout name _ _ => name
  | InnerProduct name _ _ _ _ => name
  | Softmax name _ => name
  | SoftmaxWithLoss name _ => name
  | HungarianLoss name _ _ _ _ _ => name
  end.

Definition layer_bottoms (l : layer) : list string :=
  match l with
  | NumpyData _ _ => nil
  | GoogleNet g => g_bottom g
  | Convolution _ bottoms _ _ _ _ _ _ => bottoms
  | Power _ _ bottoms => bottoms
  | Transpose _ bottoms => bottoms
  | Concat _ bottoms _ => bottoms
  | LstmUnit _ _ _ _ _ bottoms _ => bottoms
  | Dropout _ _ bottoms => bottoms
  | InnerProduct _ _ bottoms _ _ => bottoms
  | Softmax _ bottoms => bottoms
  | SoftmaxWithLoss _ bottoms => bottoms
  | HungarianLoss _ bottoms _ _ _ _ => bottoms
  end.

(** The tops a layer declares; the others declare none. *)
Definition layer_tops (l : layer) : list string :=
  match l with
  | GoogleNet g => g_top g
  | LstmUnit _ _ _ _ _ _ tops => tops
  | HungarianLoss _ _ tops _ _ _ => tops
  | _ => nil
  end.

(** The net: the layers forwarded since the last [clear_forward], and the
    blobs. *)
Record ApolloNet : Type := mkNet {
  layers : list layer;
  blobs : string -> option Array
}.

(** A computation on the net that may raise. *)
Definition M (A : Type) : Type := ApolloNet -> outcome (A * ApolloNet).

Definition ret {A : Type} (a : A) : M A := fun net => Done (a, net).

Definition mbind {A B : Type} (m : M A) (k : A -> M B) : M B :=
  fun net =>
    match m net with
    | Done (a, net') => k a net'
    | Fail f => Fail f
    end.

Definition raise {A : Type} (f : failure) : M A := fun _ => Fail f.

Definition lift {A : Type} (o : outcome A) : M A :=
  fun net => match o with Done a => Done (a, net) | Fail f => Fail f end.

(** The external functions. *)
Variable run_layer :
  layer -> (string -> option Array) -> outcome (string -> option Array).
Variable np_shape : Array -> list Z.
Variable np_reshape : Array -> list Z -> outcome Array.
Variable np_zeros : list Z -> outcome Array.
Variable googlenet_layers : list GLayer.
(** Whether [LstmUnit] accepts the keyword [tie_output_forget]. *)
Variable lstm_accepts_tie : bool.

(** [net.f(layer)]. *)
Definition net_f (l : layer) : M unit :=
  fun net =>
    match run_layer l (blobs net) with
    | Done b => Done (tt, mkNet (layers net ++ l :: nil)%list b)
    | Fail f => Fail f
    end.

(** [net.clear_forward()]. *)
Definition clear_forward : M unit :=
  fun net => Done (tt, mkNet nil (fun _ => None)).

(** [net.blobs[name]]. *)
Definition net_blob (name : string) : M Array :=
  fun net =>
    match blobs net name with
    | Some a => Done (a, net)
    | None => Fail (KeyError name)
    end.

(** [l[i]] on a Python list. *)
Definition get {A : Type} (l : list A) (i : Z) : outcome A :=
  match py_get l i with
  | Ok a => Done a
  | Raise e => Fail (Builtin e)
  end.

Definition obind {A B : Type} (o : outcome A) (k : A -> outcome B)
    : outcome B :=
  match o with
  | Done a => k a
  | Fail f => Fail f
  end.

Notation "x <~ m ;; k" := (mbind m (fun x => k))
  (at level 61, m at next level, right associativity).
Notation "m ;;; k" := (mbind m (fun _ => k))
  (at level 61, right associativity).

(** *** [generate_decapitated_googlenet] (lines 94-108) *)

(** Line 99: [google_layers[0].p.bottom[0] = "image"]. *)
Definition set_first_bottom (google_layers : list GLayer)
    : outcome (list GLayer) :=
  match google_layers with
  | nil => Fail (Builtin IndexError)
  | g :: rest =>
      match g_bottom g with
      | nil => Fail (Builtin IndexError)
      | _ :: bs =>
          Done (mkGLayer (g_name g) (g_type g) ("image" :: bs) (g_top g)
                  (g_lr_mult g) :: rest)
      end
  end.

(** Lines 104-105: [p.lr_mult *= net_config["googlenet_lr_mult"]] for each
    parameter. *)
Definition scale_lr (mult : num) (g : GLayer) : GLayer :=
  mkGLayer (g_name g) (g_type g) (g_bottom g) (g_top g)
    (map (fun lr => lr * val mult) (g_lr_mult g)).

(** Lines 100-108. *)
Fixpoint googlenet_loop (mult : num) (google_layers : list GLayer) : M unit :=
  match google_layers with
  | nil => ret tt
  | layer :: rest =>
      if contains "loss" (g_name layer) then googlenet_loop mult rest
      else
        let layer' :=
          if (g_type layer =? "Convolution") || (g_type layer =? "InnerProduct")
          then scale_lr mult layer else layer in
        net_f (GoogleNet layer') ;;;
        if g_name layer =? "inception_5b/output" then ret tt
        else googlenet_loop mult rest
  end.

Definition generate_decapitated_googlenet (googlenet_lr_mult : num)
    : M unit :=
  google_layers <~ lift (set_first_bottom googlenet_layers) ;;
  googlenet_loop googlenet_lr_mult google_layers.

(** *** [generate_intermediate_layers] (lines 110-121) *)

Definition generate_intermediate_layers : M unit :=
  net_f (Convolution "post_fc7_conv" ("inception_5b/output" :: nil)
           (1 :: 2 :: nil) (0 :: 0 :: nil) 1024 (1, 1)%Z
           (mkFiller "gaussian" (PyFloat (5 # 1000)))
           (mkFiller "constant" (PyFloat 0))) ;;;
  net_f (Power "lstm_fc7_conv" (1 # 100) ("post_fc7_conv" :: nil)) ;;;
  net_f (Transpose "lstm_input" ("lstm_fc7_conv" :: nil)).

(** *** [generate_ground_truth_layers] (lines 123-136) *)

(** Lines 130-131 and 134-135: the first two axes are merged. *)
Definition new_shape (old_shape : list Z) : outcome (list Z) :=
  obind (get old_shape 0) (fun d0 =>
  obind (get old_shape 1) (fun d1 =>
  Done ((d0 * d1)%Z :: skipn 2 old_shape))).

Definition generate_ground_truth_layers (box_flags boxes : Array) : M unit :=
  shape_flags <~ lift (new_shape (np_shape box_flags)) ;;
  flags <~ lift (np_reshape box_flags shape_flags) ;;
  net_f (NumpyData "box_flags" flags) ;;;
  shape_boxes <~ lift (new_shape (np_shape boxes)) ;;
  bxs <~ lift (np_reshape boxes shape_boxes) ;;
  net_f (NumpyData "boxes" bxs).

(** *** [generate_lstm_seeds] (lines 138-145) *)

Definition lstm_seed (name : string) (num_cells : Z) : M unit :=
  lstm_input <~ net_blob "lstm_input" ;;
  rows <~ lift (get (np_shape lstm_input) 0) ;;
  zeros <~ lift (np_zeros (rows :: num_cells :: nil)) ;;
  net_f (NumpyData name zeros).

Definition generate_lstm_seeds (num_cells : Z) : M unit :=
  lstm_seed "lstm_hidden_seed" num_cells ;;;
  lstm_seed "lstm_mem_seed" num_cells.

(** *** [get_lstm_params] (lines 147-154) *)

Definition get_lstm_params (step : Z) : string * string :=
  if (step =? 0)%Z then ("lstm_hidden_seed", "lstm_mem_seed")
  else ("lstm_hidden" ++ fmt_d (step - 1), "lstm_mem" ++ fmt_d (step - 1)).

(** *** [generate_lstm] (lines 156-183)

    The [try] builds the unit with [tie_output_forget=True]; when the
    constructor refuses the keyword, the [except] branch builds it
    without. *)
Definition generate_lstm (step : Z) (lstm_params : Z * Filler)
    (lstm_out : string * string) (dropout_ratio : num) : M unit :=
  let hidden_bottom := fst lstm_out in
  let mem_bottom := snd lstm_out in
  let num_cells := fst lstm_params in
  let filler := snd lstm_params in
  net_f (Concat ("concat" ++ fmt_d step)
           ("lstm_input" :: hidden_bottom :: nil) None) ;;;
  let lstm_unit :=
    LstmUnit ("lstm" ++ fmt_d step) num_cells filler
      (if lstm_accepts_tie then Some true else None)
      ("input_value" :: "input_gate" :: "forget_gate" :: "output_gate" :: nil)
      (("concat" ++ fmt_d step) :: mem_bottom :: nil)
      (("lstm_hidden" ++ fmt_d step) :: ("lstm_mem" ++ fmt_d step) :: nil) in
  net_f lstm_unit ;;;
  net_f (Dropout ("dropout" ++ fmt_d step) dropout_ratio
           (("lstm_hidden" ++ fmt_d step) :: nil)).

(** *** [generate_inner_products] (lines 185-198) *)

Definition generate_inner_products (step : Z) (filler : Filler) : M unit :=
  net_f (InnerProduct ("ip_conf" ++ fmt_d step) 2
           (("dropout" ++ fmt_d step) :: nil) true filler) ;;;
  net_f (InnerProduct ("ip_bbox_unscaled" ++ fmt_d step) 4
           (("dropout" ++ fmt_d step) :: nil) true filler) ;;;
  net_f (Power ("ip_bbox" ++ fmt_d step) 100
           (("ip_bbox_unscaled" ++ fmt_d step) :: nil)) ;;;
  net_f (Softmax ("ip_soft_conf" ++ fmt_d step)
           (("ip_conf" ++ fmt_d step) :: nil)).

(** *** [generate_losses] (lines 200-219)

    The first layer is given as protobuf text; its fields are kept. *)
Definition generate_losses (hungarian_loss_weight : num) : M unit :=
  net_f (HungarianLoss "hungarian"
           ("bbox_concat" :: "boxes" :: "box_flags" :: nil)
           ("hungarian" :: "box_confidences" :: "box_assignments" :: nil)
           hungarian_loss_weight (1 # 2) true) ;;;
  net_f (SoftmaxWithLoss "box_loss"
           ("score_concat" :: "box_confidences" :: nil)).

(** *** [forward] (lines 221-265) *)

Record InputData : Type := mkInputData {
  image : Array;
  box_flags : Array;
  boxes : Array
}.

(** The entries of [net_config] that [forward] reads. *)
Record ForwardConfig : Type := mkForwardConfig {
  googlenet_lr_mult : num;
  lstm_num_cells : Z;
  init_range : num;
  max_len : Z;
  dropout_ratio : num;
  hungarian_loss_weight : num
}.

(** Lines 243-250: the loop over the steps, with [concat_bottoms]. *)
Fixpoint step_loop (net_config : ForwardConfig) (filler : Filler)
    (steps : list Z) (score bbox : list string)
    : M (list string * list string) :=
  match steps with
  | nil => ret (score, bbox)
  | step :: rest =>
      let lstm_out := get_lstm_params step in
      generate_lstm step (lstm_num_cells net_config, filler) lstm_out
        (dropout_ratio net_config) ;;;
      generate_inner_products step filler ;;;
      step_loop net_config filler rest
        (List.app score (("ip_conf" ++ fmt_d step) :: nil))
        (List.app bbox (("ip_bbox" ++ fmt_d step) :: nil))
  end.

(** Lines 259-262: the blobs read in deploy mode. *)
Fixpoint read_blobs (names : list string) : M (list Array) :=
  match names with
  | nil => ret nil
  | name :: rest =>
      a <~ net_blob name ;;
      l <~ read_blobs rest ;;
      ret (a :: l)
  end.

Definition forward (input_data : InputData) (net_config : ForwardConfig)
    (deploy : bool) : M (option (list Array * list Array)) :=
  clear_forward ;;;
  net_f (NumpyData "image" (image input_data)) ;;;
  generate_decapitated_googlenet (googlenet_lr_mult net_config) ;;;
  generate_intermediate_layers ;;;
  (if negb deploy
   then generate_ground_truth_layers (box_flags input_data) (boxes input_data)
   else ret tt) ;;;
  generate_lstm_seeds (lstm_num_cells net_config) ;;;
  let filler := mkFiller "uniform" (init_range net_config) in
  concat_bottoms <~ step_loop net_config filler
                      (py_range (max_len net_config)) nil nil ;;
  net_f (Concat "score_concat" (fst concat_bottoms) (Some 2%Z)) ;;;
  net_f (Concat "bbox_concat" (snd concat_bottoms) (Some 2%Z)) ;;;
  (if negb deploy then generate_losses (hungarian_loss_weight net_config)
   else ret tt) ;;;
  if deploy then
    bbox <~ read_blobs (map (fun j => "ip_bbox" ++ fmt_d j)
                          (py_range (max_len net_config))) ;;
    conf <~ read_blobs (map (fun j => "ip_soft_conf" ++ fmt_d j)
                          (py_range (max_len net_config))) ;;
    ret (Some (bbox, conf))
  else ret None.

(** *** Vocabulary of the properties of the network *)

(** The blob names a list of layers provides: the name of each layer and
    the tops it declares. *)
Definition produced (ls : list layer) : list string :=
  flat_map (fun l => layer_name l :: layer_tops l) ls.

Definition is_googlenet (l : layer) : Prop := exists g, l = GoogleNet g.

(** No layer outside the GoogLeNet part reads a blob that no earlier layer
    provides. *)
Definition well_wired (ls : list layer) : Prop :=
  forall pre l post,
    ls = (pre ++ l :: post)%list ->
    is_googlenet l \/
    forall b, In b (layer_bottoms l) -> In b (produced pre).

(** The layers that are not of the GoogLeNet part. *)
Definition own_layers (ls : list layer) : list layer :=
  filter (fun l => match l with GoogleNet _ => false | _ => true end) ls.

(** The layers one step of the loop forwards, in order. *)
Definition step_layers (net_config : ForwardConfig) (filler : Filler)
    (step : Z) : list layer :=
  Concat ("concat" ++ fmt_d step)
    ("lstm_input" :: fst (get_lstm_params step) :: nil) None
  :: LstmUnit ("lstm" ++ fmt_d step) (lstm_num_cells net_config) filler
       (if lstm_accepts_tie then Some true else None)
       ("input_value" :: "input_gate" :: "forget_gate" :: "output_gate" :: nil)
       (("concat" ++ fmt_d step) :: snd (get_lstm_params step) :: nil)
       (("lstm_hidden" ++ fmt_d step) :: ("lstm_mem" ++ fmt_d step) :: nil)
  :: Dropout ("dropout" ++ fmt_d step) (dropout_ratio net_config)
       (("lstm_hidden" ++ fmt_d step) :: nil)
  :: InnerProduct ("ip_conf" ++ fmt_d step) 2
       (("dropout" ++ fmt_d step) :: nil) true filler
  :: InnerProduct ("ip_bbox_unscaled" ++ fmt_d step) 4
       (("dropout" ++ fmt_d step) :: nil) true filler
  :: Power ("ip_bbox" ++ fmt_d step) 100
       (("ip_bbox_unscaled" ++ fmt_d step) :: nil)
  :: Softmax ("ip_soft_conf" ++ fmt_d step)
       (("ip_conf" ++ fmt_d step) :: nil)
  :: nil.

(** The tops of the [LstmUnit] that [generate_lstm] builds at a step. *)
Definition lstm_tops (step : Z) : string * string :=
  ("lstm_hidden" ++ fmt_d step, "lstm_mem" ++ fmt_d step).

(** A layer of [googlenet_layers()] as it is forwarded: its learning-rate
    multipliers scaled when it is a convolution or an inner product. *)
Definition scaled (mult : num) (g : GLayer) : GLayer :=
  if (g_type g =? "Convolution") || (g_type g =? "InnerProduct")
  then scale_lr mult g else g.

Definition product (shape : list Z) : Z := fold_right Z.mul 1%Z shape.

(** The layers of [googlenet_layers()] that the loop of lines 100-108
    forwards, in order: those without "loss" in their name, up to and
    including the first one named "inception_5b/output". *)
Fixpoint emitted (mult : num) (google_layers : list GLayer) : list GLayer :=
  match google_layers with
  | nil => nil
  | g :: rest =>
      if contains "loss" (g_name g) then emitted mult rest
      else scaled mult g ::
           (if g_name g =? "inception_5b/output" then nil
            else emitted mult rest)
  end.

(** The layers of [generate_intermediate_layers]. *)
Definition intermediate_layers : list layer :=
  Convolution "post_fc7_conv" ("inception_5b/output" :: nil)
    (1 :: 2 :: nil) (0 :: 0 :: nil) 1024 (1, 1)%Z
    (mkFiller "gaussian" (PyFloat (5 # 1000)))
    (mkFiller "constant" (PyFloat 0))
  :: Power "lstm_fc7_conv" (1 # 100) ("post_fc7_conv" :: nil)
  :: Transpose "lstm_input" ("lstm_fc7_conv" :: nil)
  :: nil.

(** The layers of [generate_losses]. *)
Definition loss_layers (hungarian_loss_weight : num) : list layer :=
  HungarianLoss "hungarian"
    ("bbox_concat" :: "boxes" :: "box_flags" :: nil)
    ("hungarian" :: "box_confidences" :: "box_assignments" :: nil)
    hungarian_loss_weight (1 # 2) true
  :: SoftmaxWithLoss "box_loss" ("score_concat" :: "box_confidences" :: nil)
  :: nil.

(** The layers [forward] leaves in the net, given the layers of the
    GoogLeNet part and the arrays of the data layers. *)
Definition forward_layers (input_data : InputData)
    (net_config : ForwardConfig) (deploy : bool) (google : list GLayer)
    (flags bxs hidden mem : Array) : list layer :=
  let filler := mkFiller "uniform" (init_range net_config) in
  let steps := py_range (max_len net_config) in
  List.app (NumpyData "image" (image input_data) :: List.map GoogleNet google)
  (List.app intermediate_layers
  (List.app (if deploy then nil
             else NumpyData "box_flags" flags :: NumpyData "boxes" bxs :: nil)
  (List.app (NumpyData "lstm_hidden_seed" hidden
             :: NumpyData "lstm_mem_seed" mem :: nil)
  (List.app (List.flat_map (step_layers net_config filler) steps)
  (List.app (Concat "score_concat"
               (List.map (fun j => "ip_conf" ++ fmt_d j) steps) (Some 2%Z)
             :: Concat "bbox_concat"
                  (List.map (fun j => "ip_bbox" ++ fmt_d j) steps) (Some 2%Z)
             :: nil)
            (if deploy then nil
             else loss_layers (hungarian_loss_weight net_config))))))).

(** Every layer of [ls] outside the GoogLeNet part reads only blobs of
    [avail] or of the layers before it. *)
Fixpoint wired_from (avail : list string) (ls : list layer) : Prop :=
  match ls with
  | nil => True
  | l :: rest =>
      (is_googlenet l \/ incl (layer_bottoms l) avail) /\
      wired_from (List.app avail (layer_name l :: layer_tops l)) rest
  end.

End Layers.

Arguments NumpyData {Array}.
Arguments GoogleNet {Array}.
Arguments Convolution {Array}.
Arguments Power {Array}.
Arguments Transpose {Array}.
Arguments Concat {Array}.
Arguments LstmUnit {Array}.
Arguments Dropout {Array}.
Arguments InnerProduct {Array}.
Arguments Softmax {Array}.
Arguments SoftmaxWithLoss {Array}.
Arguments HungarianLoss {Array}.
Arguments layer_name {Array}.
Arguments layer_bottoms {Array}.
Arguments layer_tops {Array}.
Arguments mkNet {Array}.
Arguments layers {Array}.
Arguments blobs {Array}.
Arguments produced {Array}.
Arguments is_googlenet {Array}.
Arguments well_wired {Array}.
Arguments own_layers {Array}.
Arguments mkInputData {Array}.
Arguments image {Array}.
Arguments box_flags {Array}.
Arguments boxes {Array}.
Arguments intermediate_layers {Array}.
Arguments loss_layers {Array}.
Arguments wired_from {Array}.

(** *** A small instance

    A net whose arrays are trivial and whose layers always run, over a
    five-layer stand-in for [googlenet_layers()], unrolled for two
    steps. *)
Definition example_googlenet : list GLayer :=
  mkGLayer "conv1/7x7_s2" "Convolution" ("data" :: nil)
    ("conv1/7x7_s2" :: nil) (1 :: 2 :: nil)
  :: mkGLayer "loss1/ave_pool" "Pooling" ("conv1/7x7_s2" :: nil)
       ("loss1/ave_pool" :: nil) nil
  :: mkGLayer "inception_5b/output" "Concat" ("conv1/7x7_s2" :: nil)
       ("inception_5b/output" :: nil) nil
  :: mkGLayer "pool5/7x7_s1" "Pooling" ("inception_5b/output" :: nil)
       ("pool5/7x7_s1" :: nil) nil
  :: mkGLayer "loss3/classifier" "InnerProduct" ("pool5/7x7_s1" :: nil)
       ("loss3/classifier" :: nil) (1 :: 2 :: nil)
  :: nil.

Definition example_run_layer (l : layer unit) (b : string -> option unit)
    : outcome (string -> option unit) :=
  Done (fun _ => Some tt).

Definition example_shape (a : unit) : list Z :=
  (300 :: 1 :: 5 :: 1 :: nil)%Z.

Definition example_reshape (a : unit) (shape : list Z) : outcome unit :=
  Done a.

Definition example_zeros (shape : list Z) : outcome unit := Done tt.

Definition example_config : ForwardConfig :=
  mkForwardConfig (PyFloat 1) 250 (PyFloat (1 # 10)) 2
    (PyFloat (15 # 100)) (PyFloat (3 # 100)).

Definition example_net : ApolloNet unit := mkNet nil (fun _ => None).

Definition example_forward (deploy : bool)
    : outcome (option (list unit * list unit) * ApolloNet unit) :=
  forward unit example_run_layer example_shape example_reshape
    example_zeros example_googlenet true (mkInputData tt tt tt)
    example_config deploy example_net.

(** The net [example_forward] ends in. *)
Definition example_result (deploy : bool) : ApolloNet unit :=
  mkNet
    (forward_layers unit true (mkInputData tt tt tt) example_config deploy
       (emitted (PyFloat 1)
          (mkGLayer "conv1/7x7_s2" "Convolution" ("image" :: nil)
             ("conv1/7x7_s2" :: nil) (1 :: 2 :: nil)
           :: List.tl example_googlenet))
       tt tt tt tt)
    (fun _ => Some tt).

End Net.

(** * Properties *)

(** ** Geometry *)

Lemma float_div_ok (a b : Q) : ~ b == 0 -> float_div a b = Ok (a / b).
Proof.
  intros Hb. unfold float_div.
  destruct (Qeq_bool b 0) eqn:E; [|reflexivity].
  apply Qeq_bool_iff in E. contradiction.
Qed.

Lemma float_div_raise (a b : Q) :
  b == 0 -> float_div a b = Raise ZeroDivisionError.
Proof.
  intros Hb. unfold float_div.
  apply Qeq_bool_iff in Hb. rewrite Hb. reflexivity.
Qed.

(** [overlap_union] returns exactly when the union area is not zero. *)
Lemma overlap_union_ok (x1 y1 x2 y2 x3 y3 x4 y4 : Q) :
  ~ overlap_SU x1 y1 x2 y2 x3 y3 x4 y4 == 0 ->
  overlap_union x1 y1 x2 y2 x3 y3 x4 y4 =
  Ok (overlap_SI x1 y1 x2 y2 x3 y3 x4 y4 / overlap_SU x1 y1 x2 y2 x3 y3 x4 y4).
Proof. intros H. unfold overlap_union. now apply float_div_ok. Qed.





(** The intersection area never exceeds the area of the first rectangle. *)
Lemma overlap_SI_le_first (x1 y1 x2 y2 x3 y3 x4 y4 : Q) :
  x1 <= x2 -> y1 <= y2 ->
  overlap_SI x1 y1 x2 y2 x3 y3 x4 y4 <= (x2 - x1) * (y2 - y1).
Proof.
  intros Hx Hy. unfold overlap_SI.
  assert (Hx2 := Q.le_min_l x2 x4). assert (Hx1 := Q.le_max_l x1 x3).
  assert (Hy2 := Q.le_min_l y2 y4). assert (Hy1 := Q.le_max_l y1 y3).
  apply Qmult_le_compat_nonneg; (split; [apply Q.le_max_l|]);
    apply Q.max_lub; lra.
Qed.

(** Against a ground-truth box of positive area the union area is
    positive, so the division is defined. *)
Lemma overlap_SU_pos (x1 y1 x2 y2 x3 y3 x4 y4 : Q) :
  x1 <= x2 -> y1 <= y2 -> x3 < x4 -> y3 < y4 ->
  0 < overlap_SU x1 y1 x2 y2 x3 y3 x4 y4.
Proof.
  intros Hx Hy Hx' Hy'. unfold overlap_SU.
  assert (Hsi := overlap_SI_le_first x1 y1 x2 y2 x3 y3 x4 y4 Hx Hy).
  assert (Hpos : 0 < (x4 - x3) * (y4 - y3)).
  { apply Qmult_lt_0_compat; lra. }
  lra.
Qed.

Lemma overlap_union_returns (x1 y1 x2 y2 x3 y3 x4 y4 : Q) :
  x1 <= x2 -> y1 <= y2 -> x3 < x4 -> y3 < y4 ->
  exists r, overlap_union x1 y1 x2 y2 x3 y3 x4 y4 = Ok r.
Proof.
  intros Hx Hy Hx' Hy'.
  assert (Hpos := overlap_SU_pos x1 y1 x2 y2 x3 y3 x4 y4 Hx Hy Hx' Hy').
  eexists. apply overlap_union_ok.
  intros E. rewrite E in Hpos. discriminate Hpos.
Qed.

(** C1 (as stated, refuted): two points have union area 0 and
    [overlap_union] raises [ZeroDivisionError] on them; it does not
    return 0. *)
Lemma C1_degenerate_raises :
  overlap_SU 0 0 0 0 1 1 1 1 == 0 /\
  overlap_union 0 0 0 0 1 1 1 1 = Raise ZeroDivisionError /\
  ~ (exists r, overlap_union 0 0 0 0 1 1 1 1 = Ok r /\ r == 0).
Proof.
  split; [reflexivity|]. split; [reflexivity|].
  intros [r [H _]]. discriminate H.
Qed.

(** C1 (amended): whenever the union area of the two rectangles is 0,
    [overlap_union] divides by it unguarded and raises
    [ZeroDivisionError]. *)
Theorem C1_zero_union_raises (x1 y1 x2 y2 x3 y3 x4 y4 : Q) :
  overlap_SU x1 y1 x2 y2 x3 y3 x4 y4 == 0 ->
  overlap_union x1 y1 x2 y2 x3 y3 x4 y4 = Raise ZeroDivisionError.
Proof. intros H. unfold overlap_union. now apply float_div_raise. Qed.

Lemma C1_zero_union_raises_witness :
  overlap_SU 2 3 2 5 2 3 2 5 == 0 /\
  overlap_union 2 3 2 5 2 3 2 5 = Raise ZeroDivisionError.
Proof.
  split; [reflexivity|].
  apply (C1_zero_union_raises 2 3 2 5 2 3 2 5). reflexivity.
Defined.






(** ** Accuracy evaluator *)

Lemma below_threshold_at_least (rect : Rect) :
  below_threshold rect = negb (at_least_threshold rect).
Proof. reflexivity. Qed.

Lemma float_of_nat_S (n : nat) : float_of_nat (S n) == float_of_nat n + 1.
Proof.
  unfold float_of_nat. rewrite Nat2Z.inj_succ, <- Z.add_1_r, inject_Z_plus.
  reflexivity.
Qed.

Lemma float_of_nat_le (n m : nat) :
  (n <= m)%nat -> float_of_nat n <= float_of_nat m.
Proof. intros H. unfold float_of_nat. rewrite <- Zle_Qle. lia. Qed.

Lemma count_anno_from (anno : list Anno.t) (c : Q) :
  fold_left (fun count _ => count + 1) anno c
  == c + float_of_nat (length anno).
Proof.
  revert c. induction anno as [|r rest IH]; intros c; simpl.
  - unfold float_of_nat. simpl. ring.
  - rewrite IH, (float_of_nat_S (length rest)). ring.
Qed.

(** [count] is the number of ground-truth boxes. *)
Lemma count_anno_length (anno : list Anno.t) :
  count_anno anno == float_of_nat (length anno).
Proof. unfold count_anno. rewrite count_anno_from. ring. Qed.

(** The inner loop increments exactly when there is a first match. *)
Lemma anno_loop_first_match (x1 y1 x2 y2 : Q) (anno : list Anno.t) (i : nat) :
  anno_loop x1 y1 x2 y2 anno =
  (m <- first_match x1 y1 x2 y2 anno i ;;
   Ok (match m with Some _ => true | None => false end)).
Proof.
  revert i. induction anno as [|r rest IH]; intros i; simpl.
  - reflexivity.
  - destruct (overlap_union _ _ _ _ _ _ _ _) as [o_u|e]; simpl.
    + destruct (float_ge o_u (1 # 2)); [reflexivity|]. apply IH.
    + reflexivity.
Qed.

Lemma first_match_bound (x1 y1 x2 y2 : Q) (anno : list Anno.t) (i j : nat) :
  first_match x1 y1 x2 y2 anno i = Ok (Some j) ->
  (i <= j < i + length anno)%nat.
Proof.
  revert i. induction anno as [|r rest IH]; intros i; simpl.
  - discriminate.
  - destruct (overlap_union _ _ _ _ _ _ _ _) as [o_u|e]; simpl.
    + destruct (float_ge o_u (1 # 2)).
      * intros H. injection H as <-. lia.
      * intros H. apply IH in H. lia.
    + discriminate.
Qed.

(** The outer loop adds one per recorded first match. *)
Lemma rect_loop_first_matches (acc_rects : list Rect) (anno : list Anno.t)
    (c0 : Q) :
  match first_matches acc_rects anno with
  | Ok l => exists c, rect_loop acc_rects anno c0 = Ok c /\
                      c == c0 + float_of_nat (length l)
  | Raise e => rect_loop acc_rects anno c0 = Raise e
  end.
Proof.
  revert c0. induction acc_rects as [|rect rest IH]; intros c0; simpl.
  - exists c0. split; [reflexivity|]. unfold float_of_nat; simpl. ring.
  - destruct (below_threshold rect); [apply IH|].
    rewrite (anno_loop_first_match _ _ _ _ anno 0).
    destruct (first_match _ _ _ _ anno 0) as [m|e]; simpl; [|reflexivity].
    destruct m as [j|].
    + specialize (IH (c0 + 1)).
      destruct (first_matches rest anno) as [l|e]; simpl; [|exact IH].
      destruct IH as [c [Hc Hv]]. exists c. split; [exact Hc|].
      rewrite Hv, float_of_nat_S. ring.
    + specialize (IH c0).
      destruct (first_matches rest anno) as [l|e]; simpl; exact IH.
Qed.

Lemma first_matches_bound (acc_rects : list Rect) (anno : list Anno.t)
    (l : list nat) :
  first_matches acc_rects anno = Ok l ->
  Forall (fun j => (j < length anno)%nat) l /\
  (length l <= length (filter at_least_threshold acc_rects))%nat.
Proof.
  revert l. induction acc_rects as [|rect rest IH]; intros l; simpl.
  - intros H. injection H as <-. split; [constructor|simpl; lia].
  - rewrite below_threshold_at_least.
    destruct (at_least_threshold rect); simpl; [|apply IH].
    destruct (first_match _ _ _ _ anno 0) as [m|e] eqn:Hm; simpl;
      [|discriminate].
    destruct (first_matches rest anno) as [l'|e]; simpl; [|discriminate].
    destruct (IH l' eq_refl) as [Hall Hlen].
    intros H. injection H as <-. destruct m as [j|].
    + apply first_match_bound in Hm. split; [constructor|]; simpl; auto; lia.
    + split; [exact Hall|]. lia.
Qed.

(** Detections below the threshold are skipped before any arithmetic. *)
Lemma rect_loop_filter (acc_rects : list Rect) (anno : list Anno.t) (c0 : Q) :
  rect_loop acc_rects anno c0 =
  rect_loop (filter at_least_threshold acc_rects) anno c0.
Proof.
  revert c0. induction acc_rects as [|rect rest IH]; intros c0; simpl.
  - reflexivity.
  - rewrite below_threshold_at_least.
    destruct (at_least_threshold rect) eqn:E; simpl.
    + rewrite below_threshold_at_least, E. simpl.
      destruct (anno_loop _ _ _ _ anno) as [hit|e]; simpl; [|reflexivity].
      apply IH.
    + apply IH.
Qed.

Lemma rect_loop_no_anno (acc_rects : list Rect) (c0 : Q) :
  rect_loop acc_rects [] c0 = Ok c0.
Proof.
  induction acc_rects as [|rect rest IH]; simpl; [reflexivity|].
  destruct (below_threshold rect); exact IH.
Qed.

Lemma evaluate_inv (acc_rects : list Rect) (anno : list Anno.t) (c t : Q) :
  evaluate acc_rects anno = Ok (c, t) ->
  rect_loop acc_rects anno 0 = Ok c /\ t = count_anno anno.
Proof.
  unfold evaluate.
  destruct (rect_loop acc_rects anno 0) as [c'|e]; simpl; [|discriminate].
  intros H. injection H as <- <-. split; reflexivity.
Qed.

(** The evaluator returns on well-formed data: detections of non-negative
    width and height, ground-truth boxes of positive width and height. *)
Lemma anno_loop_returns (x1 y1 x2 y2 : Q) (anno : list Anno.t) :
  x1 <= x2 -> y1 <= y2 ->
  Forall positive_box anno ->
  exists hit, anno_loop x1 y1 x2 y2 anno = Ok hit.
Proof.
  intros Hx Hy Hall. induction Hall as [|r rest [Hrx Hry] _ IH]; simpl.
  - now exists false.
  - destruct (overlap_union_returns x1 y1 x2 y2 _ _ _ _ Hx Hy Hrx Hry)
      as [o_u ->]. simpl.
    destruct (float_ge o_u (1 # 2)); [now exists true|exact IH].
Qed.

Lemma rect_corners_ordered (rect : Rect) :
  nonneg_size rect ->
  rect_x1 rect <= rect_x2 rect /\ rect_y1 rect <= rect_y2 rect.
Proof.
  unfold nonneg_size, rect_x1, rect_x2, rect_y1, rect_y2.
  intros [Hw Hh]. split.
  - assert (0 <= val (width rect) / 2) by (apply Qle_shift_div_l; lra). lra.
  - assert (0 <= val (height rect) / 2) by (apply Qle_shift_div_l; lra). lra.
Qed.

Lemma rect_loop_returns (acc_rects : list Rect) (anno : list Anno.t) (c0 : Q) :
  Forall nonneg_size acc_rects ->
  Forall positive_box anno ->
  exists c, rect_loop acc_rects anno c0 = Ok c.
Proof.
  intros Hrects Hanno. revert c0.
  induction Hrects as [|rect rest Hrect _ IH]; intros c0; simpl.
  - now exists c0.
  - destruct (below_threshold rect); [apply IH|].
    destruct (rect_corners_ordered rect Hrect) as [Hx Hy].
    destruct (anno_loop_returns _ _ _ _ anno Hx Hy Hanno) as [hit ->].
    simpl. apply IH.
Qed.

Lemma evaluate_returns (acc_rects : list Rect) (anno : list Anno.t) :
  Forall nonneg_size acc_rects ->
  Forall positive_box anno ->
  exists c, evaluate acc_rects anno = Ok (c, count_anno anno).
Proof.
  intros Hrects Hanno. unfold evaluate.
  destruct (rect_loop_returns acc_rects anno 0 Hrects Hanno) as [c ->].
  now exists c.
Qed.

(** [get_accuracy] is the decoder, the stitcher and the evaluator in
    sequence. *)
Lemma get_accuracy_evaluate (Net Inputs : Type)
    (inputs_anno : Inputs -> list Anno.t)
    (forward : Net -> Inputs -> NetConfig -> list step_bbox * list step_conf)
    (stitch_rects : grid -> NetConfig -> list Rect)
    (net : Net) (inputs : Inputs) (net_config : NetConfig) :
  get_accuracy Net Inputs inputs_anno forward stitch_rects
    net inputs net_config =
  (all_rects <- decode net_config (fst (forward net inputs net_config))
                  (snd (forward net inputs net_config)) ;;
   evaluate (stitch_rects all_rects net_config) (inputs_anno inputs)).
Proof.
  unfold get_accuracy, evaluate.
  destruct (forward net inputs net_config); reflexivity.
Qed.

Lemma get_accuracy_no_anno (Net Inputs : Type)
    (inputs_anno : Inputs -> list Anno.t)
    (forward : Net -> Inputs -> NetConfig -> list step_bbox * list step_conf)
    (stitch_rects : grid -> NetConfig -> list Rect)
    (net : Net) (inputs : Inputs) (net_config : NetConfig)
    (all_rects : grid) :
  inputs_anno inputs = [] ->
  decode net_config (fst (forward net inputs net_config))
    (snd (forward net inputs net_config)) = Ok all_rects ->
  get_accuracy Net Inputs inputs_anno forward stitch_rects
    net inputs net_config = Ok (0, 0).
Proof.
  intros Hanno Hdec. rewrite get_accuracy_evaluate, Hdec, Hanno. simpl.
  unfold evaluate. rewrite rect_loop_no_anno. reflexivity.
Qed.

(** C2 (as stated, refuted): two detections that both coincide with the
    single ground-truth box are both counted, so the evaluator returns
    (2, 1): the covered count exceeds the ground-truth count. *)
Lemma C2_duplicate_detections_overcount :
  evaluate
    [mkRect (PyInt 1) (PyInt 1) (PyFloat 2) (PyFloat 2) (PyFloat 1) (PyFloat 1);
     mkRect (PyInt 1) (PyInt 1) (PyFloat 2) (PyFloat 2) (PyFloat 1) (PyFloat 1)]
    [Anno.mk (PyInt 0) (PyInt 0) (PyInt 2) (PyInt 2)]
  = Ok (2, 1) /\ ~ (2 <= 1).
Proof. split; [reflexivity|]. intros H. apply H. reflexivity. Qed.

(** C2 (amended): the evaluator counts each detection at or above the
    threshold at most once, at the first ground-truth box it overlaps by at
    least 0.5; when no two such detections stop at the same ground-truth
    box, it returns a covered count that does not exceed the ground-truth
    count, which is the number of ground-truth boxes. *)
Theorem C2_covered_le_total (acc_rects : list Rect) (anno : list Anno.t)
    (l : list nat) :
  first_matches acc_rects anno = Ok l ->
  NoDup l ->
  exists c t, evaluate acc_rects anno = Ok (c, t) /\
              c == float_of_nat (length l) /\
              t == float_of_nat (length anno) /\
              c <= t.
Proof.
  intros Hl Hnd.
  assert (Hloop := rect_loop_first_matches acc_rects anno 0).
  rewrite Hl in Hloop. destruct Hloop as [c [Hc Hv]].
  destruct (first_matches_bound _ _ _ Hl) as [Hall _].
  assert (Hlen : (length l <= length anno)%nat).
  { rewrite <- (length_seq (length anno) 0).
    apply NoDup_incl_length; [exact Hnd|].
    intros j Hj. apply in_seq. rewrite Forall_forall in Hall.
    specialize (Hall j Hj). lia. }
  exists c, (count_anno anno). unfold evaluate. rewrite Hc. simpl.
  assert (Hcv : c == float_of_nat (length l)) by (rewrite Hv; ring).
  repeat split.
  - exact Hcv.
  - apply count_anno_length.
  - rewrite Hcv, count_anno_length. now apply float_of_nat_le.
Qed.

Lemma C2_covered_le_total_witness :
  exists c t,
    evaluate
      [mkRect (PyInt 1) (PyInt 1) (PyFloat 2) (PyFloat 2)
         (PyFloat 1) (PyFloat 1);
       mkRect (PyInt 6) (PyInt 6) (PyFloat 2) (PyFloat 2)
         (PyFloat 1) (PyFloat 1)]
      [Anno.mk (PyInt 5) (PyInt 5) (PyInt 7) (PyInt 7);
       Anno.mk (PyInt 0) (PyInt 0) (PyInt 2) (PyInt 2)]
    = Ok (c, t) /\
    c == float_of_nat 2 /\ t == float_of_nat 2 /\ c <= t.
Proof.
  refine (C2_covered_le_total
    [mkRect (PyInt 1) (PyInt 1) (PyFloat 2) (PyFloat 2)
       (PyFloat 1) (PyFloat 1);
     mkRect (PyInt 6) (PyInt 6) (PyFloat 2) (PyFloat 2)
       (PyFloat 1) (PyFloat 1)]
    [Anno.mk (PyInt 5) (PyInt 5) (PyInt 7) (PyInt 7);
     Anno.mk (PyInt 0) (PyInt 0) (PyInt 2) (PyInt 2)]
    [1%nat; 0%nat] _ _).
  - reflexivity.
  - repeat constructor; simpl; intuition discriminate.
Defined.

(** C5: detections whose [true_confidence] is below 0.9 do not affect the
    result, which is the result on the detections at or above 0.9 alone;
    one ground-truth box and one detection with [true_confidence] 0.5
    give (0, 1), wherever the detection lies. *)
Theorem C5_below_threshold_ignored :
  (forall (acc_rects : list Rect) (anno : list Anno.t),
     evaluate acc_rects anno =
     evaluate (filter at_least_threshold acc_rects) anno) /\
  (forall (rect : Rect) (g : Anno.t),
     val (true_confidence rect) == 1 # 2 ->
     evaluate [rect] [g] = Ok (0, 1)).
Proof.
  split.
  - intros acc_rects anno. unfold evaluate.
    rewrite rect_loop_filter. reflexivity.
  - intros rect g Hc. unfold evaluate. simpl.
    assert (Hb : below_threshold rect = true).
    { unfold below_threshold, float_lt, conf_threshold.
      destruct (Qle_bool (9 # 10) (val (true_confidence rect))) eqn:E;
        [|reflexivity].
      apply Qle_bool_iff in E. rewrite Hc in E.
      exfalso. apply E. reflexivity. }
    rewrite Hb. reflexivity.
Qed.

Lemma C5_below_threshold_ignored_witness :
  evaluate
    [mkRect (PyInt 1) (PyInt 1) (PyFloat 2) (PyFloat 2)
       (PyFloat (1 # 2)) (PyFloat (1 # 2))]
    [Anno.mk (PyInt 0) (PyInt 0) (PyInt 2) (PyInt 2)]
  = Ok (0, 1).
Proof.
  apply (proj2 C5_below_threshold_ignored). reflexivity.
Defined.

(** C6: with an empty ground-truth set the evaluator returns (0, 0),
    whatever the stitched detections are. *)
Theorem C6_empty_ground_truth (acc_rects : list Rect) :
  evaluate acc_rects [] = Ok (0, 0).
Proof. unfold evaluate. rewrite rect_loop_no_anno. reflexivity. Qed.

(** C10: the covered count returned by the evaluator never exceeds the
    number of detections whose [true_confidence] is at least 0.9: each of
    them adds at most one, the inner loop being left at the first overlap
    of at least 0.5. *)
Theorem C10_covered_le_detections (acc_rects : list Rect)
    (anno : list Anno.t) (c t : Q) :
  evaluate acc_rects anno = Ok (c, t) ->
  c <= float_of_nat (length (filter at_least_threshold acc_rects)).
Proof.
  intros H. apply evaluate_inv in H. destruct H as [Hc _].
  assert (Hloop := rect_loop_first_matches acc_rects anno 0).
  destruct (first_matches acc_rects anno) as [l|e] eqn:Hl.
  - destruct Hloop as [c' [Hc' Hv]]. rewrite Hc in Hc'.
    injection Hc' as <-.
    destruct (first_matches_bound _ _ _ Hl) as [_ Hlen].
    rewrite Hv. apply float_of_nat_le in Hlen. lra.
  - rewrite Hc in Hloop. discriminate Hloop.
Qed.

Lemma C10_covered_le_detections_witness :
  2 <= float_of_nat (length (filter at_least_threshold
    [mkRect (PyInt 1) (PyInt 1) (PyFloat 2) (PyFloat 2) (PyFloat 1) (PyFloat 1);
     mkRect (PyInt 9) (PyInt 9) (PyFloat 2) (PyFloat 2)
       (PyFloat (1 # 2)) (PyFloat (1 # 2));
     mkRect (PyInt 1) (PyInt 1) (PyFloat 2) (PyFloat 2)
       (PyFloat 1) (PyFloat 1)])).
Proof.
  apply (C10_covered_le_detections _
           [Anno.mk (PyInt 0) (PyInt 0) (PyInt 2) (PyInt 2)] 2 1).
  reflexivity.
Defined.

(** ** Grid decoder *)

Lemma val_py_add (a b : num) : val (py_add a b) == val a + val b.
Proof.
  destruct a, b; simpl; try reflexivity; now rewrite inject_Z_plus.
Qed.

Lemma val_py_mul (a b : num) : val (py_mul a b) == val a * val b.
Proof.
  destruct a, b; simpl; try reflexivity; now rewrite inject_Z_mult.
Qed.

(** Dividing by the int 2 never raises. *)
Lemma py_div_2 (pix_per : num) : py_div pix_per (PyInt 2) = Ok (py_half pix_per).
Proof. destruct pix_per; reflexivity. Qed.

Lemma cell_base_ok (pix_per : num) (index : Z) :
  cell_base pix_per index =
  Ok (py_add (py_half pix_per) (py_mul pix_per (PyInt index))).
Proof. unfold cell_base. rewrite py_div_2. reflexivity. Qed.

Lemma val_cell_base (pix_per : num) (index : Z) :
  val (py_add (py_half pix_per) (py_mul pix_per (PyInt index)))
  == val (py_half pix_per) + val pix_per * inject_Z index.
Proof. rewrite val_py_add, val_py_mul. reflexivity. Qed.


(** On an odd int the half is rounded down by half a pixel. *)
Lemma val_py_half_odd (z : Z) :
  Z.odd z = true -> val (py_half (PyInt z)) == inject_Z z / 2 - (1 # 2).
Proof.
  intros H. apply Z.odd_spec in H. destruct H as [k ->].
  unfold py_half, val.
  replace ((2 * k + 1) / 2)%Z with k
    by (apply (Z.div_unique_pos _ 2 k 1); lia).
  rewrite inject_Z_plus, inject_Z_mult. field.
Qed.

Lemma decode_rect_ok (pix_per_w pix_per_h : num) (x y : Z)
    (dx dy w h c0 c1 : Q) :
  decode_rect pix_per_w pix_per_h x y [dx; dy; w; h] [c0; c1] =
  Ok (Rect_init
        (py_add (py_add (py_half pix_per_w) (py_mul pix_per_w (PyInt x)))
                (PyInt (py_int dx)))
        (py_add (py_add (py_half pix_per_h) (py_mul pix_per_h (PyInt y)))
                (PyInt (py_int dy)))
        (PyFloat w) (PyFloat h) (PyFloat c1)).
Proof.
  unfold decode_rect. rewrite !cell_base_ok. reflexivity.
Qed.

(** Inside the loop the cell coordinates are [x = k % gw], [y = k / gw]. *)
Lemma decode_cell_rect (pix_per_w pix_per_h : num) (gw : Z)
    (bbox_list : list step_bbox) (conf_list : list step_conf) (n k : Z)
    (all_rects : grid) (bbox_n : step_bbox) (conf_n : step_conf)
    (bbox conf_row : list Q) :
  gw <> 0%Z ->
  py_get bbox_list n = Ok bbox_n -> py_get bbox_n k = Ok bbox ->
  py_get conf_list n = Ok conf_n -> py_get conf_n k = Ok conf_row ->
  decode_cell pix_per_w pix_per_h gw bbox_list conf_list n k all_rects =
  (r <- decode_rect pix_per_w pix_per_h (k mod gw) (k / gw) bbox conf_row ;;
   grid_append all_rects (k / gw) (k mod gw) r).
Proof.
  intros Hgw Hbn Hb Hcn Hc. unfold decode_cell, py_mod. simpl.
  apply Z.eqb_neq in Hgw. rewrite Hgw. simpl.
  rewrite Hbn. simpl. rewrite Hb. simpl. rewrite Hcn. simpl. rewrite Hc.
  reflexivity.
Qed.

(** [int()] rounds toward zero. *)
Lemma py_int_truncation (q : Q) : truncation_of q (py_int q).
Proof.
  destruct q as [n d]. unfold truncation_of, py_int, Qle, Qlt. simpl.
  assert (Hd : (0 < Z.pos d)%Z) by lia.
  assert (Hqr := Z.quot_rem' n (Z.pos d)).
  set (t := (n ÷ Z.pos d)%Z) in *. set (r := Z.rem n (Z.pos d)) in *.
  split; intros Hn.
  - assert (Hr : (0 <= r < Z.pos d)%Z)
      by (apply Z.rem_bound_pos; lia).
    nia.
  - assert (Hr : (- Z.pos d < r <= 0)%Z)
      by (apply Z.rem_bound_pos_neg; lia).
    nia.
Qed.


(** C3 (as stated, refuted): with 32 pixels per cell, cell (0, 0) and the
    raw offset dx = 0.5, the decoded center abscissa is 16, not
    32/2 + 32*0 + 0.5: the offset is truncated by [int()] before it is
    added. *)
Lemma C3_fractional_offset_dropped :
  decode_rect (PyInt 32) (PyInt 32) 0 0 [1 # 2; 0; 8; 8] [1 # 10; 9 # 10] =
  Ok (mkRect (PyInt 16) (PyInt 16) (PyFloat 8) (PyFloat 8)
        (PyFloat (9 # 10)) (PyFloat (9 # 10))) /\
  ~ val (PyInt 16) == 32 / 2 + 32 * 0 + (1 # 2).
Proof. split; [reflexivity|]. intros H. discriminate H. Qed.

(** C3 (amended): for every grid cell (x, y), every raw step output
    [dx, dy, w, h] and every 2-way softmax output, the decoded rectangle
    has center abs_cx = pix_per_w/2 + pix_per_w*x + int(dx) and
    abs_cy = pix_per_h/2 + pix_per_h*y + int(dy), where [int] truncates
    toward zero and [/] is the division of Python 2; width w and height h
    are passed through unchanged, and the confidence is index 1 of the
    softmax output. *)
Theorem C3_decoded_rectangle (pix_per_w pix_per_h : num) (x y : Z)
    (dx dy w h c0 c1 : Q) :
  exists r,
    decode_rect pix_per_w pix_per_h x y [dx; dy; w; h] [c0; c1] = Ok r /\
    py_div pix_per_w (PyInt 2) = Ok (py_half pix_per_w) /\
    py_div pix_per_h (PyInt 2) = Ok (py_half pix_per_h) /\
    val (cx r) == val (py_half pix_per_w) + val pix_per_w * inject_Z x
                  + inject_Z (py_int dx) /\
    val (cy r) == val (py_half pix_per_h) + val pix_per_h * inject_Z y
                  + inject_Z (py_int dy) /\
    truncation_of dx (py_int dx) /\
    truncation_of dy (py_int dy) /\
    width r = PyFloat w /\
    height r = PyFloat h /\
    confidence r = PyFloat c1.
Proof.
  eexists. split; [apply decode_rect_ok|]. simpl.
  split; [apply py_div_2|]. split; [apply py_div_2|].
  split; [rewrite val_py_add, val_cell_base; reflexivity|].
  split; [rewrite val_py_add, val_cell_base; reflexivity|].
  split; [apply py_int_truncation|]. split; [apply py_int_truncation|].
  repeat split.
Qed.





(** * Further properties *)

(** ** Geometry *)


Lemma overlap_SI_sym (x1 y1 x2 y2 x3 y3 x4 y4 : Q) :
  overlap_SI x1 y1 x2 y2 x3 y3 x4 y4 == overlap_SI x3 y3 x4 y4 x1 y1 x2 y2.
Proof.
  unfold overlap_SI.
  rewrite (Q.min_comm x2 x4), (Q.max_comm x1 x3).
  rewrite (Q.min_comm y2 y4), (Q.max_comm y1 y3). reflexivity.
Qed.

Lemma overlap_SU_sym (x1 y1 x2 y2 x3 y3 x4 y4 : Q) :
  overlap_SU x1 y1 x2 y2 x3 y3 x4 y4 == overlap_SU x3 y3 x4 y4 x1 y1 x2 y2.
Proof.
  unfold overlap_SU. rewrite (overlap_SI_sym x1 y1 x2 y2 x3 y3 x4 y4). ring.
Qed.

Lemma float_div_compat (a b a' b' : Q) :
  a == a' -> b == b' -> result_Qeq (float_div a b) (float_div a' b').
Proof.
  intros Ha Hb. unfold float_div.
  destruct (Qeq_bool b 0) eqn:E; destruct (Qeq_bool b' 0) eqn:E'; simpl.
  - reflexivity.
  - apply Qeq_bool_iff in E. rewrite Hb in E. apply Qeq_bool_iff in E.
    congruence.
  - apply Qeq_bool_iff in E'. rewrite <- Hb in E'. apply Qeq_bool_iff in E'.
    congruence.
  - rewrite Ha, Hb. reflexivity.
Qed.



(** X1: [overlap_union] is symmetric in its two rectangles. *)
Theorem overlap_union_sym (x1 y1 x2 y2 x3 y3 x4 y4 : Q) :
  result_Qeq (overlap_union x1 y1 x2 y2 x3 y3 x4 y4)
             (overlap_union x3 y3 x4 y4 x1 y1 x2 y2).
Proof.
  unfold overlap_union. apply float_div_compat.
  - apply overlap_SI_sym.
  - apply overlap_SU_sym.
Qed.




















(** ** Loops and lists *)

Lemma bind_Ok_inv {A B : Type} (m : result A) (k : A -> result B) (b : B) :
  bind m k = Ok b -> exists a, m = Ok a /\ k a = Ok b.
Proof. destruct m as [a|e]; simpl; [eauto|discriminate]. Qed.

Lemma for_each_app {A S : Type} (l1 l2 : list A)
    (body : A -> S -> result S) (s : S) :
  for_each (l1 ++ l2) body s =
  (s' <- for_each l1 body s ;; for_each l2 body s').
Proof.
  revert s. induction l1 as [|a l1 IH]; intros s; simpl; [reflexivity|].
  destruct (body a s) as [s'|e]; simpl; [apply IH|reflexivity].
Qed.

Lemma for_each_map {A B S : Type} (f : A -> B) (l : list A)
    (body : B -> S -> result S) (s : S) :
  for_each (map f l) body s = for_each l (fun a => body (f a)) s.
Proof.
  revert s. induction l as [|a l IH]; intros s; simpl; [reflexivity|].
  destruct (body (f a) s) as [s'|e]; simpl; [apply IH|reflexivity].
Qed.

(** A loop nest is a single loop over the pairs of indices. *)
Lemma for_each_nest {A B S : Type} (ns : list A) (ks : list B)
    (body : A -> B -> S -> result S) (s : S) :
  for_each ns (fun n => for_each ks (body n)) s =
  for_each (flat_map (fun n => map (pair n) ks) ns)
           (fun p => body (fst p) (snd p)) s.
Proof.
  revert s. induction ns as [|n ns IH]; intros s; simpl; [reflexivity|].
  rewrite for_each_app, for_each_map. simpl.
  destruct (for_each ks (body n) s) as [s'|e]; simpl; [apply IH|reflexivity].
Qed.

(** An invariant of the loop body that follows the elements already
    visited holds of the whole list when the loop returns. *)
Lemma for_each_visited {A S : Type} (P : list A -> S -> Prop) (l : list A)
    (body : A -> S -> result S) (s s' : S) :
  (forall pre a post t t',
      l = pre ++ a :: post -> P pre t -> body a t = Ok t' ->
      P (pre ++ [a]) t') ->
  P [] s -> for_each l body s = Ok s' -> P l s'.
Proof.
  intros Hstep.
  assert (G : forall post pre t, l = pre ++ post -> P pre t ->
                for_each post body t = Ok s' -> P l s').
  { induction post as [|a post IH]; intros pre t El Hp Hf; simpl in Hf.
    - injection Hf as <-. rewrite app_nil_r in El. now subst l.
    - apply bind_Ok_inv in Hf. destruct Hf as [t' [Hb Hf]].
      apply (IH (pre ++ [a]) t'); [|eauto|exact Hf].
      rewrite <- app_assoc. exact El. }
  intros H0 Hf. exact (G l [] s eq_refl H0 Hf).
Qed.


Lemma list_set_length {A : Type} (l : list A) (i : nat) (a : A) :
  length (list_set l i a) = length l.
Proof.
  revert i. induction l as [|h t IH]; intros [|i]; simpl; auto.
Qed.

Lemma list_set_Forall {A : Type} (P : A -> Prop) (l : list A) (i : nat)
    (a : A) :
  Forall P l -> P a -> Forall P (list_set l i a).
Proof.
  intros Hl Ha. revert i.
  induction Hl as [|h t Hh Ht IH]; intros [|i]; simpl; auto.
Qed.

Lemma nth_error_list_set {A : Type} (l : list A) (i j : nat) (a : A) :
  nth_error (list_set l i a) j =
  if Nat.eqb i j
  then (if Nat.ltb i (length l) then Some a else None)
  else nth_error l j.
Proof.
  revert i j. induction l as [|h t IH]; intros i j.
  - destruct i, j; simpl; try reflexivity.
    destruct (Nat.eqb i j); reflexivity.
  - destruct i as [|i], j as [|j]; simpl; try reflexivity.
    rewrite IH. reflexivity.
Qed.

Lemma py_index_Ok (len : nat) (i : Z) (j : nat) :
  (0 <= i)%Z -> py_index len i = Ok j -> j = Z.to_nat i /\ (j < len)%nat.
Proof.
  intros Hi. unfold py_index.
  destruct ((0 <=? i) && (i <? Z.of_nat len))%Z eqn:E.
  - intros H. injection H as <-. apply andb_true_iff in E. lia.
  - destruct ((- Z.of_nat len <=? i) && (i <? 0))%Z eqn:E'; [|discriminate].
    apply andb_true_iff in E'. lia.
Qed.

Lemma py_index_in_range (len : nat) (i : Z) :
  (0 <= i < Z.of_nat len)%Z -> py_index len i = Ok (Z.to_nat i).
Proof.
  intros Hi. unfold py_index.
  replace ((0 <=? i) && (i <? Z.of_nat len))%Z with true; [reflexivity|].
  symmetry. apply andb_true_iff. lia.
Qed.

Lemma py_get_Ok {A : Type} (l : list A) (i : Z) (a : A) :
  (0 <= i)%Z -> py_get l i = Ok a ->
  nth_error l (Z.to_nat i) = Some a /\ (i < Z.of_nat (length l))%Z.
Proof.
  intros Hi H. unfold py_get in H. apply bind_Ok_inv in H.
  destruct H as [j [Hj H]]. apply py_index_Ok in Hj; [|exact Hi].
  destruct Hj as [-> Hlt].
  destruct (nth_error l (Z.to_nat i)) as [b|]; [|discriminate].
  injection H as <-. split; [reflexivity|lia].
Qed.

Lemma py_get_in_range {A : Type} (l : list A) (i : Z) :
  (0 <= i < Z.of_nat (length l))%Z ->
  exists a, py_get l i = Ok a /\ nth_error l (Z.to_nat i) = Some a.
Proof.
  intros Hi. unfold py_get. rewrite py_index_in_range by exact Hi. simpl.
  destruct (nth_error l (Z.to_nat i)) as [a|] eqn:E; [eauto|].
  apply nth_error_None in E. lia.
Qed.

Lemma py_range_length (n : Z) : length (py_range n) = Z.to_nat n.
Proof. unfold py_range. now rewrite length_map, length_seq. Qed.

Lemma py_range_In (n k : Z) : In k (py_range n) <-> (0 <= k < n)%Z.
Proof.
  unfold py_range. rewrite in_map_iff. split.
  - intros [j [<- Hj]]. apply in_seq in Hj. lia.
  - intros Hk. exists (Z.to_nat k). split; [lia|]. apply in_seq. lia.
Qed.

Lemma py_range_nth (n : Z) (j : nat) :
  (j < Z.to_nat n)%nat -> nth_error (py_range n) j = Some (Z.of_nat j).
Proof.
  intros Hj. unfold py_range. rewrite nth_error_map.
  rewrite nth_error_seq.
  replace (Nat.ltb j (Z.to_nat n)) with true
    by (symmetry; apply Nat.ltb_lt; exact Hj).
  reflexivity.
Qed.

(** ** The decoding loop *)

Lemma empty_grid_shape (gw gh : Z) : grid_shape gw gh (empty_grid gw gh).
Proof.
  unfold grid_shape, empty_grid. split.
  - now rewrite length_map, py_range_length.
  - apply Forall_forall. intros row Hrow. apply in_map_iff in Hrow.
    destruct Hrow as [y [<- _]]. now rewrite length_map, py_range_length.
Qed.

Lemma grid_append_inv (g : grid) (y x : Z) (r : Rect) (g' : grid) :
  (0 <= y)%Z -> (0 <= x)%Z ->
  grid_append g y x r = Ok g' ->
  exists row cell,
    nth_error g (Z.to_nat y) = Some row /\
    nth_error row (Z.to_nat x) = Some cell /\
    g' = list_set g (Z.to_nat y) (list_set row (Z.to_nat x) (cell ++ [r])).
Proof.
  intros Hy Hx H. unfold grid_append in H.
  apply bind_Ok_inv in H. destruct H as [row [Hrow H]].
  apply bind_Ok_inv in H. destruct H as [cell [Hcell H]].
  apply bind_Ok_inv in H. destruct H as [iy [Hiy H]].
  apply bind_Ok_inv in H. destruct H as [ix [Hix H]].
  injection H as <-.
  apply py_index_Ok in Hiy; [|exact Hy]. destruct Hiy as [-> _].
  apply py_index_Ok in Hix; [|exact Hx]. destruct Hix as [-> _].
  apply py_get_Ok in Hrow; [|exact Hy]. apply py_get_Ok in Hcell; [|exact Hx].
  exists row, cell. tauto.
Qed.

Lemma grid_append_shape (gw gh : Z) (g : grid) (y x : Z) (r : Rect)
    (g' : grid) :
  (0 <= y)%Z -> (0 <= x)%Z ->
  grid_shape gw gh g -> grid_append g y x r = Ok g' -> grid_shape gw gh g'.
Proof.
  intros Hy Hx [Hlen Hrows] H.
  apply grid_append_inv in H; [|exact Hy|exact Hx].
  destruct H as [row [cell [Hrow [Hcell ->]]]].
  split.
  - now rewrite list_set_length.
  - apply list_set_Forall; [exact Hrows|].
    rewrite list_set_length. rewrite Forall_forall in Hrows.
    apply Hrows. eapply nth_error_In. exact Hrow.
Qed.


(** Inside the loop the cell of index [k] is [(k % gw, k / gw)]. *)
Lemma decode_cell_step (pix_per_w pix_per_h : num) (gw : Z)
    (bbox_list : list step_bbox) (conf_list : list step_conf) (n k : Z)
    (all_rects : grid) :
  gw <> 0%Z ->
  decode_cell pix_per_w pix_per_h gw bbox_list conf_list n k all_rects =
  (r <- step_rect pix_per_w pix_per_h bbox_list conf_list
          (k mod gw) (k / gw) k n ;;
   grid_append all_rects (k / gw) (k mod gw) r).
Proof.
  intros Hgw. unfold decode_cell, step_rect, py_mod, py_div.
  apply Z.eqb_neq in Hgw. rewrite Hgw. simpl.
  destruct (py_get bbox_list n) as [bbox_n|e]; simpl; [|reflexivity].
  destruct (py_get bbox_n k) as [bbox|e]; simpl; [|reflexivity].
  destruct (py_get conf_list n) as [conf_n|e]; simpl; [|reflexivity].
  destruct (py_get conf_n k) as [conf_row|e]; simpl; reflexivity.
Qed.

Lemma decode_cell_shape (pix_per_w pix_per_h : num) (gw gh : Z)
    (bbox_list : list step_bbox) (conf_list : list step_conf) (n k : Z)
    (g g' : grid) :
  (0 < gw)%Z -> (0 <= k)%Z -> grid_shape gw gh g ->
  decode_cell pix_per_w pix_per_h gw bbox_list conf_list n k g = Ok g' ->
  grid_shape gw gh g'.
Proof.
  intros Hgw Hk Hg H. rewrite decode_cell_step in H by lia.
  apply bind_Ok_inv in H. destruct H as [r [_ H]].
  eapply grid_append_shape; [| |exact Hg|exact H].
  - apply Z.div_pos; lia.
  - apply Z.mod_pos_bound. lia.
Qed.

Lemma decode_inv (net_config : NetConfig)
    (bbox_list : list step_bbox) (conf_list : list step_conf) (g : grid) :
  decode net_config bbox_list conf_list = Ok g ->
  exists pix_per_w pix_per_h,
    py_div (img_width net_config) (PyInt (grid_width net_config))
      = Ok pix_per_w /\
    py_div (img_height net_config) (PyInt (grid_height net_config))
      = Ok pix_per_h /\
    for_each (py_range (Z.of_nat (length bbox_list)))
      (fun n => for_each
         (py_range (grid_height net_config * grid_width net_config))
         (decode_cell pix_per_w pix_per_h (grid_width net_config)
            bbox_list conf_list n))
      (empty_grid (grid_width net_config) (grid_height net_config)) = Ok g.
Proof.
  unfold decode. intros H.
  apply bind_Ok_inv in H. destruct H as [pw [Hw H]].
  apply bind_Ok_inv in H. destruct H as [ph [Hh H]].
  exists pw, ph. tauto.
Qed.

(** X7: a zero grid dimension makes the decoder raise
    [ZeroDivisionError], whatever the network has produced. *)
Theorem decode_zero_grid (net_config : NetConfig)
    (bbox_list : list step_bbox) (conf_list : list step_conf) :
  grid_width net_config = 0%Z \/ grid_height net_config = 0%Z ->
  decode net_config bbox_list conf_list = Raise ZeroDivisionError.
Proof.
  intros H. unfold decode.
  destruct (Z.eq_dec (grid_width net_config) 0) as [E|NE].
  - rewrite E. destruct (img_width net_config); reflexivity.
  - destruct H as [H|H]; [contradiction|]. rewrite H.
    destruct (py_div (img_width net_config) (PyInt (grid_width net_config)))
      as [pw|e] eqn:Hw; simpl.
    + destruct (img_height net_config); reflexivity.
    + unfold py_div in Hw. destruct (img_width net_config); simpl in Hw.
      * destruct (grid_width net_config =? 0)%Z; [|discriminate].
        now injection Hw as <-.
      * destruct (Qeq_bool (inject_Z (grid_width net_config)) 0);
          [|discriminate].
        now injection Hw as <-.
Qed.

Lemma decode_zero_grid_witness :
  decode (mkNetConfig (PyInt 640) (PyFloat 480) 20 0)
    [[[0; 0; 8; 8]]] [[[0; 1]]] = Raise ZeroDivisionError.
Proof. apply decode_zero_grid. right. reflexivity. Defined.

(** X8: the grid the decoder returns has [grid_height] rows of
    [grid_width] cells. *)
Theorem decode_shape (net_config : NetConfig)
    (bbox_list : list step_bbox) (conf_list : list step_conf) (g : grid) :
  decode net_config bbox_list conf_list = Ok g ->
  grid_shape (grid_width net_config) (grid_height net_config) g.
Proof.
  intros H. apply decode_inv in H. destruct H as [pw [ph [Hw [_ H]]]].
  set (gw := grid_width net_config) in *.
  set (gh := grid_height net_config) in *.
  rewrite for_each_nest in H.
  revert H. apply (for_each_visited (fun _ t => grid_shape gw gh t)).
  - intros pre [n k] post t t' El Ht Hb. simpl in Hb.
    assert (Hin : In (n, k)
              (flat_map (fun n => map (pair n) (py_range (gh * gw)))
                 (py_range (Z.of_nat (length bbox_list))))).
    { rewrite El. apply in_or_app. right. now left. }
    apply in_flat_map in Hin. destruct Hin as [n' [_ Hin]].
    apply in_map_iff in Hin. destruct Hin as [k' [Ek Hk]].
    injection Ek as -> ->. apply py_range_In in Hk.
    destruct (Z_lt_le_dec 0 gw) as [Hgw|Hgw].
    + eapply decode_cell_shape; eauto. lia.
    + exfalso.
      destruct (Z.eq_dec gw 0) as [E0|N0].
      * unfold decode_cell in Hb. rewrite E0 in Hb. simpl in Hb.
        discriminate Hb.
      * assert (Hgh : (gh < 0)%Z) by nia.
        destruct Ht as [Hlen _].
        assert (Hnil : t = []).
        { destruct t; [reflexivity|]. simpl in Hlen. lia. }
        subst t. rewrite decode_cell_step in Hb by exact N0.
        apply bind_Ok_inv in Hb. destruct Hb as [r [_ Hb]].
        unfold grid_append, py_get, py_index in Hb. simpl in Hb.
        destruct ((0 <=? k / gw) && (k / gw <? 0))%Z eqn:E1.
        { apply andb_true_iff in E1. lia. }
        destruct ((0 <=? k / gw) && (k / gw <? 0))%Z eqn:E2;
          simpl in Hb; discriminate Hb.
  - apply empty_grid_shape.
Qed.

Lemma filter_seq_below (j s len : nat) :
  (j < s)%nat ->
  filter (fun k => (k =? Z.of_nat j)%Z) (map Z.of_nat (seq s len)) = [].
Proof.
  revert s. induction len as [|len IH]; intros s Hj; simpl; [reflexivity|].
  replace (Z.of_nat s =? Z.of_nat j)%Z with false
    by (symmetry; apply Z.eqb_neq; lia).
  apply IH. lia.
Qed.

Lemma filter_seq_in (j s len : nat) :
  (s <= j < s + len)%nat ->
  filter (fun k => (k =? Z.of_nat j)%Z) (map Z.of_nat (seq s len))
  = [Z.of_nat j].
Proof.
  revert s. induction len as [|len IH]; intros s Hj; simpl; [lia|].
  destruct (Nat.eq_dec s j) as [->|Hne].
  - rewrite Z.eqb_refl. rewrite filter_seq_below by lia. reflexivity.
  - replace (Z.of_nat s =? Z.of_nat j)%Z with false
      by (symmetry; apply Z.eqb_neq; lia).
    apply IH. lia.
Qed.

Lemma filter_py_range (K k0 : Z) :
  (0 <= k0 < K)%Z -> filter (fun k => (k =? k0)%Z) (py_range K) = [k0].
Proof.
  intros Hk. unfold py_range.
  rewrite <- (Z2Nat.id k0) by lia. apply filter_seq_in. lia.
Qed.

Lemma filter_pairs (ns ks : list Z) (k0 : Z) :
  filter (fun k => (k =? k0)%Z) ks = [k0] ->
  filter (fun p : Z * Z => (snd p =? k0)%Z)
         (flat_map (fun n => map (pair n) ks) ns)
  = map (fun n => (n, k0)) ns.
Proof.
  intros Hks. induction ns as [|n ns IH]; simpl; [reflexivity|].
  rewrite filter_app, IH. f_equal.
  assert (G : forall l, filter (fun p : Z * Z => (snd p =? k0)%Z)
                          (map (pair n) l)
                        = map (pair n) (filter (fun k => (k =? k0)%Z) l)).
  { induction l as [|k l IHl]; simpl; [reflexivity|].
    destruct (k =? k0)%Z; simpl; now rewrite IHl. }
  rewrite G, Hks. reflexivity.
Qed.

(** The invariant of the decoding loop: after the iterations [done], each
    cell holds, in order, the rectangles of the iterations that fell into
    it. *)
Lemma decode_loop_cells (pw ph : num) (gw gh : Z)
    (bbox_list : list step_bbox) (conf_list : list step_conf)
    (pairs : list (Z * Z)) (g : grid) :
  (0 < gw)%Z -> (0 < gh)%Z ->
  (forall n k, In (n, k) pairs -> (0 <= k < gh * gw)%Z) ->
  for_each pairs
    (fun p => decode_cell pw ph gw bbox_list conf_list (fst p) (snd p))
    (empty_grid gw gh) = Ok g ->
  grid_shape gw gh g /\
  forall y x : nat,
    (y < Z.to_nat gh)%nat -> (x < Z.to_nat gw)%nat ->
    exists row cell,
      nth_error g y = Some row /\ nth_error row x = Some cell /\
      map Ok cell =
      map (fun p => step_rect pw ph bbox_list conf_list
                      (Z.of_nat x) (Z.of_nat y) (snd p) (fst p))
          (filter (fun p => (snd p =? Z.of_nat y * gw + Z.of_nat x)%Z) pairs).
Proof.
  intros Hgw Hgh Hpairs Hloop.
  set (Inv := fun (visited : list (Z * Z)) (t : grid) =>
    grid_shape gw gh t /\
    forall y x : nat,
      (y < Z.to_nat gh)%nat -> (x < Z.to_nat gw)%nat ->
      exists row cell,
        nth_error t y = Some row /\ nth_error row x = Some cell /\
        map Ok cell =
        map (fun p => step_rect pw ph bbox_list conf_list
                        (Z.of_nat x) (Z.of_nat y) (snd p) (fst p))
            (filter (fun p => (snd p =? Z.of_nat y * gw + Z.of_nat x)%Z)
                    visited)).
  assert (Hfinal : Inv pairs g).
  { revert Hloop. apply (for_each_visited Inv).
    - intros pre [n k] post t t' El [Hshape Hcells] Hb. simpl in Hb.
      assert (Hk : (0 <= k < gh * gw)%Z).
      { apply (Hpairs n). rewrite El. apply in_or_app. right. now left. }
      assert (Hx0 : (0 <= k mod gw < gw)%Z) by (apply Z.mod_pos_bound; lia).
      assert (Hy0 : (0 <= k / gw < gh)%Z).
      { split; [apply Z.div_pos; lia|].
        apply Z.div_lt_upper_bound; lia. }
      assert (Hdm := Z.div_mod k gw ltac:(lia)).
      split.
      { eapply decode_cell_shape; eauto. lia. }
      rewrite decode_cell_step in Hb by lia.
      apply bind_Ok_inv in Hb. destruct Hb as [r [Hr Hb]].
      apply grid_append_inv in Hb; [|lia|lia].
      destruct Hb as [row0 [cell0 [Hrow0 [Hcell0 ->]]]].
      destruct Hshape as [Hlen Hrows].
      assert (Hrl0 : length row0 = Z.to_nat gw).
      { rewrite Forall_forall in Hrows. apply Hrows.
        eapply nth_error_In. exact Hrow0. }
      intros y x Hy Hx.
      destruct (Hcells y x Hy Hx) as [row [cell [Hrow [Hcell Hmap]]]].
      rewrite filter_app. simpl.
      rewrite nth_error_list_set.
      destruct (Nat.eq_dec (Z.to_nat (k / gw)) y) as [Ey|Ey].
      + subst y. rewrite Nat.eqb_refl.
        rewrite Hrow0 in Hrow. injection Hrow as <-.
        replace (Nat.ltb (Z.to_nat (k / gw)) (length t)) with true
          by (symmetry; apply Nat.ltb_lt; lia).
        exists (list_set row0 (Z.to_nat (k mod gw)) (cell0 ++ [r])).
        destruct (Nat.eq_dec (Z.to_nat (k mod gw)) x) as [Ex|Ex].
        * subst x. exists (cell0 ++ [r]). split; [reflexivity|].
          rewrite nth_error_list_set, Nat.eqb_refl.
          rewrite Hcell0 in Hcell. injection Hcell as <-.
          replace (Nat.ltb (Z.to_nat (k mod gw)) (length row0)) with true
            by (symmetry; apply Nat.ltb_lt; lia).
          split; [reflexivity|].
          rewrite !Z2Nat.id in * by lia.
          replace (k =? k / gw * gw + k mod gw)%Z with true
            by (symmetry; apply Z.eqb_eq; lia).
          rewrite !map_app, Hmap. simpl. rewrite Hr. reflexivity.
        * exists cell. split; [reflexivity|].
          rewrite nth_error_list_set.
          replace (Nat.eqb (Z.to_nat (k mod gw)) x) with false
            by (symmetry; apply Nat.eqb_neq; exact Ex).
          split; [exact Hcell|].
          replace (k =? Z.of_nat (Z.to_nat (k / gw)) * gw + Z.of_nat x)%Z
            with false by (symmetry; apply Z.eqb_neq; lia).
          simpl. rewrite app_nil_r. exact Hmap.
      + replace (Nat.eqb (Z.to_nat (k / gw)) y) with false
          by (symmetry; apply Nat.eqb_neq; exact Ey).
        exists row, cell. split; [exact Hrow|]. split; [exact Hcell|].
        replace (k =? Z.of_nat y * gw + Z.of_nat x)%Z with false.
        * simpl. rewrite app_nil_r. exact Hmap.
        * symmetry. apply Z.eqb_neq. intros Ek. apply Ey.
          assert (Hq : Z.of_nat y = (k / gw)%Z).
          { apply (Z.div_unique k gw (Z.of_nat y) (Z.of_nat x)); lia. }
          lia.
    - split; [apply empty_grid_shape|].
      intros y x Hy Hx. unfold empty_grid.
      rewrite nth_error_map, py_range_nth by exact Hy. simpl.
      eexists. eexists. split; [reflexivity|].
      rewrite nth_error_map, py_range_nth by exact Hx. simpl.
      split; reflexivity. }
  exact Hfinal.
Qed.

(** X9: in the grid the decoder returns, the cell in column [x] of row [y]
    holds one rectangle per step of the network output, in step order: the
    rectangle decoded for [(x, y)] from entry [y*grid_width + x] of that
    step's box and confidence arrays. *)
Theorem decode_cells (net_config : NetConfig)
    (bbox_list : list step_bbox) (conf_list : list step_conf) (g : grid)
    (pix_per_w pix_per_h : num) (y x : Z) :
  decode net_config bbox_list conf_list = Ok g ->
  py_div (img_width net_config) (PyInt (grid_width net_config))
    = Ok pix_per_w ->
  py_div (img_height net_config) (PyInt (grid_height net_config))
    = Ok pix_per_h ->
  (0 <= y < grid_height net_config)%Z ->
  (0 <= x < grid_width net_config)%Z ->
  exists row cell,
    py_get g y = Ok row /\ py_get row x = Ok cell /\
    map Ok cell =
    map (step_rect pix_per_w pix_per_h bbox_list conf_list x y
           (y * grid_width net_config + x))
        (py_range (Z.of_nat (length bbox_list))).
Proof.
  intros H Hw Hh Hy Hx.
  apply decode_inv in H. destruct H as [pw [ph [Hw' [Hh' H]]]].
  rewrite Hw in Hw'. injection Hw' as <-.
  rewrite Hh in Hh'. injection Hh' as <-.
  set (gw := grid_width net_config) in *.
  set (gh := grid_height net_config) in *.
  rewrite for_each_nest in H.
  assert (Hp : forall n k,
             In (n, k)
               (flat_map (fun n => map (pair n) (py_range (gh * gw)))
                  (py_range (Z.of_nat (length bbox_list)))) ->
             (0 <= k < gh * gw)%Z).
  { intros n k Hin. apply in_flat_map in Hin. destruct Hin as [n' [_ Hin]].
    apply in_map_iff in Hin. destruct Hin as [k' [Ek Hk]].
    injection Ek as _ <-. now apply py_range_In in Hk. }
  destruct (decode_loop_cells pix_per_w pix_per_h gw gh bbox_list
              conf_list _ g ltac:(lia) ltac:(lia) Hp H) as [Hshape Hc].
  destruct (Hc (Z.to_nat y) (Z.to_nat x) ltac:(lia) ltac:(lia))
    as [row [cell [Hrow [Hcell Hmap]]]].
  rewrite !Z2Nat.id in Hmap by lia.
  rewrite filter_pairs in Hmap by (apply filter_py_range; nia).
  rewrite map_map in Hmap. simpl in Hmap.
  destruct Hshape as [Hlen Hrows].
  assert (Hrl : length row = Z.to_nat gw).
  { rewrite Forall_forall in Hrows. apply Hrows.
    eapply nth_error_In. exact Hrow. }
  exists row, cell.
  destruct (py_get_in_range g y) as [row' [Hg Hrow']]; [lia|].
  rewrite Hrow in Hrow'. injection Hrow' as <-.
  destruct (py_get_in_range row x) as [cell' [Hr Hcell']]; [lia|].
  rewrite Hcell in Hcell'. injection Hcell' as <-.
  split; [exact Hg|]. split; [exact Hr|]. exact Hmap.
Qed.






Lemma decode_shape_witness :
  grid_shape 2 1
    [[[mkRect (PyInt 5) (PyInt 5) (PyFloat 8) (PyFloat 8)
         (PyFloat 1) (PyFloat 1)];
      [mkRect (PyInt 16) (PyInt 7) (PyFloat 3) (PyFloat 4)
         (PyFloat 0) (PyFloat 0)]]].
Proof.
  apply (decode_shape (mkNetConfig (PyInt 20) (PyInt 10) 2 1)
           [[[0; 0; 8; 8]; [1; 2; 3; 4]]] [[[0; 1]; [1; 0]]]).
  reflexivity.
Defined.

Lemma decode_cells_witness :
  exists row cell,
    py_get
      [[[mkRect (PyInt 5) (PyInt 5) (PyFloat 8) (PyFloat 8)
           (PyFloat 1) (PyFloat 1)];
        [mkRect (PyInt 16) (PyInt 7) (PyFloat 3) (PyFloat 4)
           (PyFloat 0) (PyFloat 0)]]] 0 = Ok row /\
    py_get row 1 = Ok cell /\
    map Ok cell =
    map (step_rect (PyInt 10) (PyInt 10)
           [[[0; 0; 8; 8]; [1; 2; 3; 4]]] [[[0; 1]; [1; 0]]] 1 0 (0 * 2 + 1))
        (py_range (Z.of_nat 1)).
Proof.
  apply (decode_cells (mkNetConfig (PyInt 20) (PyInt 10) 2 1)
           [[[0; 0; 8; 8]; [1; 2; 3; 4]]] [[[0; 1]; [1; 0]]]);
    try reflexivity; simpl; lia.
Defined.








(** ** The evaluator on well-formed data *)














(** ** [get_accuracy] as a whole *)



(** ** Network construction *)

Module NetFacts.
Import String Ascii DecimalString DecimalZ Net.
Local Open Scope string_scope.

Lemma fmt_d_inj (a b : Z) : fmt_d a = fmt_d b -> a = b.
Proof.
  unfold fmt_d. intros H.
  assert (Hnil : forall z, Z.to_int z <> Decimal.Pos Decimal.Nil /\
                           Z.to_int z <> Decimal.Neg Decimal.Nil).
  { intros [|p|p]; simpl; split; try discriminate;
      intros E; injection E as E;
      exact (DecimalPos.Unsigned.to_uint_nonnil p E). }
  assert (Ha := NilZero.isi (Z.to_int a) (proj1 (Hnil a)) (proj2 (Hnil a))).
  assert (Hb := NilZero.isi (Z.to_int b) (proj1 (Hnil b)) (proj2 (Hnil b))).
  rewrite H in Ha. rewrite Ha in Hb. injection Hb as Hb.
  rewrite <- (DecimalZ.of_to a), <- (DecimalZ.of_to b). now rewrite Hb.
Qed.

(** The first two axes of a shape are merged: the rank drops by one and
    the number of elements is kept; a shape of rank below 2 raises. *)
Lemma new_shape_short (old_shape : list Z) :
  (List.length old_shape < 2)%nat ->
  new_shape old_shape = Fail (Builtin IndexError).
Proof.
  destruct old_shape as [|d0 [|d1 rest]]; simpl; intros H;
    try reflexivity. lia.
Qed.

(** X15: [new_shape] (the reshaping of the ground-truth arrays) raises
    [IndexError] on a shape of rank below 2; on any other shape it returns
    a shape of one axis less with the same number of elements, so the
    reshape it feeds keeps every element. *)
Theorem new_shape_keeps_size (old_shape : list Z) :
  ((List.length old_shape < 2)%nat ->
   new_shape old_shape = Fail (Builtin IndexError)) /\
  ((2 <= List.length old_shape)%nat ->
   exists shape,
     new_shape old_shape = Done shape /\
     product shape = product old_shape /\
     S (List.length shape) = List.length old_shape).
Proof.
  split; [apply new_shape_short|].
  destruct old_shape as [|d0 [|d1 rest]]; simpl; try lia. intros _.
  unfold new_shape, get.
  destruct (py_get_in_range (d0 :: d1 :: rest) 0) as [a [-> Ha]];
    [simpl; lia|].
  destruct (py_get_in_range (d0 :: d1 :: rest) 1) as [b [-> Hb]];
    [simpl; lia|].
  simpl in Ha, Hb. injection Ha as <-. injection Hb as <-. simpl.
  eexists. split; [reflexivity|]. simpl. split; [ring|reflexivity].
Qed.

Lemma new_shape_keeps_size_witness :
  exists shape,
    new_shape (300 :: 1 :: 5 :: 1 :: nil)%Z = Done shape /\
    product shape = product (300 :: 1 :: 5 :: 1 :: nil)%Z /\
    S (List.length shape) = List.length (300 :: 1 :: 5 :: 1 :: nil)%Z.
Proof.
  apply (proj2 (new_shape_keeps_size (300 :: 1 :: 5 :: 1 :: nil)%Z)).
  simpl. lia.
Defined.

(** *** Layer names *)

Lemma fmt_d_head (z : Z) : head_ok (fmt_d z) = true.
Proof.
  unfold fmt_d. destruct z as [|p|p]; simpl; [reflexivity| |reflexivity].
  unfold NilZero.string_of_uint.
  destruct (Pos.to_uint p); reflexivity.
Qed.

Ltac name_clash E :=
  simpl in E;
  first
    [ discriminate E
    | injection E as E;
      first
        [ split; [reflexivity|apply fmt_d_inj; exact E]
        | exfalso;
          match type of E with
          | fmt_d ?j = _ =>
              let H := fresh in
              assert (H := fmt_d_head j); rewrite E in H; discriminate H
          | _ = fmt_d ?j =>
              let H := fresh in
              assert (H := fmt_d_head j); rewrite <- E in H; discriminate H
          end ] ].

Lemma step_name_inj (p p' : string) (j j' : Z) :
  In p step_prefixes -> In p' step_prefixes ->
  p ++ fmt_d j = p' ++ fmt_d j' -> p = p' /\ j = j'.
Proof.
  unfold step_prefixes. simpl. intros Hp Hp' E.
  repeat (destruct Hp as [<-|Hp]; [|]); try contradiction;
    repeat (destruct Hp' as [<-|Hp']; [|]); try contradiction;
    name_clash E.
Qed.

Lemma step_name_not_fixed (p f : string) (j : Z) :
  In p step_prefixes -> In f fixed_names -> p ++ fmt_d j <> f.
Proof.
  unfold step_prefixes, fixed_names. simpl. intros Hp Hf E.
  repeat (destruct Hp as [<-|Hp]; [|]); try contradiction;
    repeat (destruct Hf as [<-|Hf]; [|]); try contradiction;
    simpl in E;
    first
      [ discriminate E
      | injection E as E;
        let H := fresh in
        match type of E with
        | fmt_d ?j = _ =>
            assert (H := fmt_d_head j); rewrite E in H; discriminate H
        end ].
Qed.

Lemma py_range_NoDup (n : Z) : NoDup (py_range n).
Proof.
  unfold py_range. apply Finite.Injective_map_NoDup.
  - intros x y. apply Nat2Z.inj.
  - apply List.seq_NoDup.
Qed.

Lemma step_names_NoDup (steps : list Z) :
  NoDup steps -> NoDup (List.flat_map step_names steps).
Proof.
  induction 1 as [|s rest Hs Hnd IH]; [constructor|].
  change (List.flat_map step_names (s :: rest))
    with (step_names s ++ List.flat_map step_names rest)%list.
  apply List.NoDup_app.
  - unfold step_names. apply Finite.Injective_map_NoDup_in.
    + intros p p' Hp Hp' E. now destruct (step_name_inj _ _ _ _ Hp Hp' E).
    + unfold step_prefixes.
      repeat constructor; simpl; intuition discriminate.
  - exact IH.
  - intros x Hx Hx'. unfold step_names in Hx.
    apply List.in_map_iff in Hx. destruct Hx as [p [<- Hp]].
    apply List.in_flat_map in Hx'. destruct Hx' as [j [Hj Hx']].
    unfold step_names in Hx'. apply List.in_map_iff in Hx'.
    destruct Hx' as [p' [E Hp']].
    destruct (step_name_inj _ _ _ _ Hp' Hp E) as [_ ->]. contradiction.
Qed.

Lemma NoDup_sandwich {A : Type} (l1 l l2 : list A) :
  NoDup (l1 ++ l2)%list -> NoDup l ->
  (forall x, In x l -> ~ In x (l1 ++ l2)%list) ->
  NoDup (l1 ++ l ++ l2)%list.
Proof.
  intros H12 Hl Hd.
  apply (Permutation.Permutation_NoDup (l := (l ++ l1 ++ l2)%list)).
  - apply Permutation.Permutation_app_swap_app.
  - apply List.NoDup_app; assumption.
Qed.

Section Facts.

Variable Array : Type.
Variable run_layer :
  layer Array -> (string -> option Array) -> outcome (string -> option Array).
Variable np_shape : Array -> list Z.
Variable np_reshape : Array -> list Z -> outcome Array.
Variable np_zeros : list Z -> outcome Array.
Variable googlenet_layers : list GLayer.
Variable lstm_accepts_tie : bool.

Lemma mbind_inv {A B : Type} (m : M Array A) (k : A -> M Array B)
    (net net'' : ApolloNet Array) (b : B) :
  mbind Array m k net = Done (b, net'') ->
  exists a net', m net = Done (a, net') /\ k a net' = Done (b, net'').
Proof.
  unfold mbind. destruct (m net) as [[a net']|f]; [eauto|discriminate].
Qed.

Lemma net_f_inv (l : layer Array) (net net' : ApolloNet Array) (u : unit) :
  net_f Array run_layer l net = Done (u, net') ->
  layers net' = (layers net ++ l :: nil)%list.
Proof.
  unfold net_f. destruct (run_layer l (blobs net)); [|discriminate].
  intros H. injection H as _ <-. reflexivity.
Qed.

Lemma lift_inv {A : Type} (o : outcome A) (net net' : ApolloNet Array)
    (a : A) :
  lift Array o net = Done (a, net') -> o = Done a /\ net' = net.
Proof.
  unfold lift. destruct o; [|discriminate].
  intros H. injection H as <- <-. split; reflexivity.
Qed.

Lemma ret_inv {A : Type} (a b : A) (net net' : ApolloNet Array) :
  ret Array a net = Done (b, net') -> b = a /\ net' = net.
Proof. unfold ret. intros H. injection H as <- <-. split; reflexivity. Qed.

Lemma net_blob_inv (name : string) (net net' : ApolloNet Array) (a : Array) :
  net_blob Array name net = Done (a, net') ->
  blobs net name = Some a /\ net' = net.
Proof.
  unfold net_blob. destruct (blobs net name); [|discriminate].
  intros H. injection H as <- <-. split; reflexivity.
Qed.

Ltac minv :=
  repeat match goal with
  | H : mbind _ _ _ _ = Done _ |- _ =>
      apply mbind_inv in H; destruct H as [? [? [? H]]]
  | H : net_f _ _ _ _ = Done _ |- _ => apply net_f_inv in H
  | H : lift _ _ _ = Done _ |- _ =>
      apply lift_inv in H; destruct H as [? ?]; subst
  | H : ret _ _ _ = Done _ |- _ =>
      apply ret_inv in H; destruct H as [? ?]; subst
  | H : net_blob _ _ _ = Done _ |- _ =>
      apply net_blob_inv in H; destruct H as [? ?]; subst
  end.

Ltac chain :=
  repeat match goal with
  | H : layers ?n = _ |- context [layers ?n] => rewrite H; clear H
  end;
  repeat rewrite <- List.app_assoc; simpl.

(** *** What each function adds to the net *)

Lemma googlenet_loop_layers (mult : num) (gl : list GLayer)
    (net net' : ApolloNet Array) (u : unit) :
  googlenet_loop Array run_layer mult gl net = Done (u, net') ->
  layers net' = (layers net ++ List.map GoogleNet (emitted mult gl))%list.
Proof.
  revert net. induction gl as [|g rest IH]; intros net H; simpl in H.
  - minv. simpl. now rewrite List.app_nil_r.
  - simpl. destruct (contains "loss" (g_name g)); [now apply IH|].
    minv. fold (scaled mult g) in *.
    destruct (g_name g =? "inception_5b/output").
    + minv. simpl. assumption.
    + apply IH in H. rewrite H.
      match goal with E : layers _ = _ |- _ => rewrite E end.
      rewrite <- List.app_assoc. reflexivity.
Qed.

Lemma generate_decapitated_googlenet_layers (mult : num)
    (net net' : ApolloNet Array) (u : unit) :
  generate_decapitated_googlenet Array run_layer googlenet_layers mult net
    = Done (u, net') ->
  exists gl,
    set_first_bottom googlenet_layers = Done gl /\
    layers net' = (layers net ++ List.map GoogleNet (emitted mult gl))%list.
Proof.
  unfold generate_decapitated_googlenet. intros H. minv.
  eexists. split; [eassumption|]. eapply googlenet_loop_layers; eassumption.
Qed.

Lemma generate_intermediate_layers_layers (net net' : ApolloNet Array)
    (u : unit) :
  generate_intermediate_layers Array run_layer net = Done (u, net') ->
  layers net' = (layers net ++ intermediate_layers)%list.
Proof.
  unfold generate_intermediate_layers. intros H. minv. chain. reflexivity.
Qed.

Lemma generate_ground_truth_layers_layers (flags_in boxes_in : Array)
    (net net' : ApolloNet Array) (u : unit) :
  generate_ground_truth_layers Array run_layer np_shape np_reshape
    flags_in boxes_in net = Done (u, net') ->
  exists flags bxs,
    layers net' = (layers net ++ NumpyData "box_flags" flags
                               :: NumpyData "boxes" bxs :: nil)%list.
Proof.
  unfold generate_ground_truth_layers. intros H. minv. chain.
  eexists. eexists. reflexivity.
Qed.

Lemma generate_lstm_seeds_layers (num_cells : Z)
    (net net' : ApolloNet Array) (u : unit) :
  generate_lstm_seeds Array run_layer np_shape np_zeros num_cells net
    = Done (u, net') ->
  exists hidden mem,
    layers net' = (layers net ++ NumpyData "lstm_hidden_seed" hidden
                               :: NumpyData "lstm_mem_seed" mem :: nil)%list.
Proof.
  unfold generate_lstm_seeds, lstm_seed. intros H. minv. chain.
  eexists. eexists. reflexivity.
Qed.

Lemma generate_losses_layers (w : num) (net net' : ApolloNet Array)
    (u : unit) :
  generate_losses Array run_layer w net = Done (u, net') ->
  layers net' = (layers net ++ loss_layers w)%list.
Proof. unfold generate_losses. intros H. minv. chain. reflexivity. Qed.

Lemma step_layers_layers (net_config : ForwardConfig) (filler : Filler)
    (step : Z) (net net1 net2 : ApolloNet Array) (u1 u2 : unit) :
  generate_lstm Array run_layer lstm_accepts_tie step
    (lstm_num_cells net_config, filler) (get_lstm_params step)
    (dropout_ratio net_config) net = Done (u1, net1) ->
  generate_inner_products Array run_layer step filler net1
    = Done (u2, net2) ->
  layers net2 =
  (layers net ++ step_layers Array lstm_accepts_tie net_config filler step)%list.
Proof.
  unfold generate_lstm, generate_inner_products. simpl. intros H1 H2.
  minv. chain. reflexivity.
Qed.

Lemma step_loop_layers (net_config : ForwardConfig) (filler : Filler)
    (steps : list Z) (score bbox : list string)
    (net net' : ApolloNet Array) (cb : list string * list string) :
  step_loop Array run_layer lstm_accepts_tie net_config filler steps
    score bbox net = Done (cb, net') ->
  layers net' =
    (layers net ++
     List.flat_map (step_layers Array lstm_accepts_tie net_config filler)
       steps)%list /\
  cb = (List.app score (List.map (fun j => "ip_conf" ++ fmt_d j) steps),
        List.app bbox (List.map (fun j => "ip_bbox" ++ fmt_d j) steps)).
Proof.
  revert score bbox net.
  induction steps as [|step rest IH]; intros score bbox net H; simpl in H.
  - minv. simpl. now rewrite !List.app_nil_r.
  - apply mbind_inv in H. destruct H as [u1 [net1 [H1 H]]].
    apply mbind_inv in H. destruct H as [u2 [net2 [H2 H]]].
    apply IH in H. destruct H as [Hl ->].
    rewrite Hl, (step_layers_layers _ _ _ _ _ _ _ _ H1 H2).
    simpl List.flat_map. simpl List.map.
    rewrite <- !List.app_assoc. split; reflexivity.
Qed.

Lemma read_blobs_inv (names : list string) (net net' : ApolloNet Array)
    (l : list Array) :
  read_blobs Array names net = Done (l, net') ->
  net' = net /\ List.map (blobs net) names = List.map Some l.
Proof.
  revert l. induction names as [|name rest IH]; intros l H; simpl in H.
  - minv. split; reflexivity.
  - apply mbind_inv in H. destruct H as [a [net1 [Ha H]]].
    apply mbind_inv in H. destruct H as [l' [net2 [Hl H]]].
    apply ret_inv in H. destruct H as [-> ->].
    apply net_blob_inv in Ha. destruct Ha as [Ha ->].
    apply IH in Hl. destruct Hl as [-> E].
    split; [reflexivity|]. simpl. now rewrite Ha, E.
Qed.

(** The layers in the net when [forward] returns. *)
Lemma forward_layers_spec (input_data : InputData Array)
    (net_config : ForwardConfig) (deploy : bool)
    (net net' : ApolloNet Array)
    (r : option (list Array * list Array)) :
  forward Array run_layer np_shape np_reshape np_zeros googlenet_layers
    lstm_accepts_tie input_data net_config deploy net = Done (r, net') ->
  exists gl flags bxs hidden mem,
    set_first_bottom googlenet_layers = Done gl /\
    layers net' =
    forward_layers Array lstm_accepts_tie input_data net_config deploy
      (emitted (googlenet_lr_mult net_config) gl) flags bxs hidden mem /\
    match r with
    | None => deploy = false
    | Some (bbox, conf) =>
        deploy = true /\
        List.map (blobs net')
          (List.map (fun j => "ip_bbox" ++ fmt_d j)
             (py_range (max_len net_config))) = List.map Some bbox /\
        List.map (blobs net')
          (List.map (fun j => "ip_soft_conf" ++ fmt_d j)
             (py_range (max_len net_config))) = List.map Some conf
    end.
Proof.
  unfold forward. intros H.
  apply mbind_inv in H. destruct H as [u0 [n0 [H0 H]]].
  unfold clear_forward in H0. injection H0 as _ <-.
  apply mbind_inv in H. destruct H as [u1 [n1 [H1 H]]].
  apply net_f_inv in H1. simpl in H1.
  apply mbind_inv in H. destruct H as [u2 [n2 [H2 H]]].
  apply generate_decapitated_googlenet_layers in H2.
  destruct H2 as [gl [Hgl H2]].
  apply mbind_inv in H. destruct H as [u3 [n3 [H3 H]]].
  apply generate_intermediate_layers_layers in H3.
  apply mbind_inv in H. destruct H as [u4 [n4 [H4 H]]].
  apply mbind_inv in H. destruct H as [u5 [n5 [H5 H]]].
  apply generate_lstm_seeds_layers in H5. destruct H5 as [hidden [mem H5]].
  apply mbind_inv in H. destruct H as [cb [n6 [H6 H]]].
  apply step_loop_layers in H6. destruct H6 as [H6 ->]. simpl in H.
  apply mbind_inv in H. destruct H as [u7 [n7 [H7 H]]].
  apply net_f_inv in H7.
  apply mbind_inv in H. destruct H as [u8 [n8 [H8 H]]].
  apply net_f_inv in H8.
  apply mbind_inv in H. destruct H as [u9 [n9 [H9 H]]].
  unfold forward_layers.
  destruct deploy; simpl in H4, H9.
  - apply ret_inv in H4. destruct H4 as [_ ->].
    apply ret_inv in H9. destruct H9 as [_ ->].
    apply mbind_inv in H. destruct H as [bb [na [Ha H]]].
    apply read_blobs_inv in Ha. destruct Ha as [-> Ha].
    apply mbind_inv in H. destruct H as [cc [nb [Hb H]]].
    apply read_blobs_inv in Hb. destruct Hb as [-> Hb].
    apply ret_inv in H. destruct H as [-> ->].
    exists gl, (image input_data), (image input_data), hidden, mem.
    split; [exact Hgl|]. split.
    + rewrite H8, H7, H6, H5, H3, H2, H1.
      repeat rewrite <- List.app_assoc. simpl. reflexivity.
    + split; [reflexivity|]. split; assumption.
  - apply generate_ground_truth_layers_layers in H4.
    destruct H4 as [flags [bxs H4]].
    apply generate_losses_layers in H9.
    apply ret_inv in H. destruct H as [-> ->].
    exists gl, flags, bxs, hidden, mem. split; [exact Hgl|]. split.
    + rewrite H9, H8, H7, H6, H5, H4, H3, H2, H1.
      repeat rewrite <- List.app_assoc. simpl. reflexivity.
    + reflexivity.
Qed.

(** *** The wiring of the layers *)

Lemma produced_app (l1 l2 : list (layer Array)) :
  produced (l1 ++ l2)%list = (produced l1 ++ produced l2)%list.
Proof. unfold produced. apply List.flat_map_app. Qed.

Lemma wired_from_sound (ls : list (layer Array)) :
  forall avail pre l post,
    wired_from avail ls -> ls = (pre ++ l :: post)%list ->
    is_googlenet l \/
    forall b, In b (layer_bottoms l) -> In b (avail ++ produced pre)%list.
Proof.
  induction ls as [|h t IH]; intros avail pre l post Hw El.
  - destruct pre; discriminate El.
  - destruct Hw as [Hh Ht]. destruct pre as [|p pre]; simpl in El.
    + injection El as -> ->. destruct Hh as [Hg|Hi]; [now left|right].
      intros b Hb. apply List.in_or_app. left. now apply Hi.
    + injection El as -> ->.
      destruct (IH _ pre l post Ht eq_refl) as [Hg|Hb]; [now left|right].
      intros b Hin. specialize (Hb b Hin).
      change (produced (p :: pre))
        with ((layer_name p :: layer_tops p) ++ produced pre)%list.
      now rewrite List.app_assoc.
Qed.

Lemma wired_from_mono (ls : list (layer Array)) :
  forall avail avail',
    incl avail avail' -> wired_from avail ls -> wired_from avail' ls.
Proof.
  induction ls as [|h t IH]; intros avail avail' Hi Hw; simpl; [exact I|].
  destruct Hw as [Hh Ht]. split.
  - destruct Hh as [Hg|Hb]; [now left|right].
    intros b Hin. apply Hi. now apply Hb.
  - apply (IH (avail ++ layer_name h :: layer_tops h)%list); [|exact Ht].
    intros x Hx. apply List.in_app_or in Hx. apply List.in_or_app.
    destruct Hx as [Hx|Hx]; [left; now apply Hi|now right].
Qed.

Lemma wired_from_app (l1 l2 : list (layer Array)) :
  forall avail,
    wired_from avail l1 -> wired_from (avail ++ produced l1)%list l2 ->
    wired_from avail (l1 ++ l2)%list.
Proof.
  induction l1 as [|h t IH]; intros avail H1 H2; simpl.
  - simpl in H2. now rewrite List.app_nil_r in H2.
  - destruct H1 as [Hh Ht]. split; [exact Hh|].
    apply IH; [exact Ht|].
    change (produced (h :: t))
      with ((layer_name h :: layer_tops h) ++ produced t)%list in H2.
    now rewrite List.app_assoc in H2.
Qed.

Lemma wired_from_googlenet (gs : list GLayer) :
  forall avail, wired_from avail (List.map (@GoogleNet Array) gs).
Proof.
  induction gs as [|g gs IH]; intros avail; simpl; [exact I|].
  split; [left; now exists g|apply IH].
Qed.

Lemma get_lstm_params_succ (step : Z) :
  (0 <= step)%Z -> get_lstm_params (step + 1) = lstm_tops step.
Proof.
  intros Hs. unfold get_lstm_params, lstm_tops.
  replace (step + 1 =? 0)%Z with false by (symmetry; apply Z.eqb_neq; lia).
  replace (step + 1 - 1)%Z with step by lia. reflexivity.
Qed.


Lemma wired_steps (net_config : ForwardConfig) (filler : Filler) (n : nat) :
  forall (a : nat) (avail : list string),
    In "lstm_input" avail ->
    In (fst (get_lstm_params (Z.of_nat a))) avail ->
    In (snd (get_lstm_params (Z.of_nat a))) avail ->
    wired_from avail
      (List.flat_map (step_layers Array lstm_accepts_tie net_config filler)
         (List.map Z.of_nat (List.seq a n))).
Proof.
  induction n as [|n IH]; intros a avail Hin Hh Hm; simpl; [exact I|].
  split; [right|split; [right|split; [right|split; [right|split;
    [right|split; [right|split; [right|]]]]]]].
  1-7: intros b Hb; simpl in Hb;
    repeat (destruct Hb as [<-|Hb]; [|]); try contradiction;
    repeat (rewrite List.in_app_iff; simpl); tauto.
  set (avail' := (_ ++ _)%list).
  assert (Hmono : incl avail avail').
  { intros x Hx. unfold avail'.
    repeat (rewrite List.in_app_iff; simpl). tauto. }
  replace (Z.of_nat (S a)) with (Z.of_nat a + 1)%Z in * by lia.
  assert (Hsucc := get_lstm_params_succ (Z.of_nat a) ltac:(lia)).
  specialize (IH (S a) avail').
  replace (Z.of_nat (S a)) with (Z.of_nat a + 1)%Z in IH by lia.
  rewrite Hsucc in IH. apply IH.
  - now apply Hmono.
  - unfold avail'. repeat (rewrite List.in_app_iff; simpl). tauto.
  - unfold avail'. repeat (rewrite List.in_app_iff; simpl). tauto.
Qed.

Lemma step_names_produced (net_config : ForwardConfig) (filler : Filler)
    (steps : list Z) (j : Z) :
  In j steps ->
  In ("ip_conf" ++ fmt_d j)
     (produced (List.flat_map
                  (step_layers Array lstm_accepts_tie net_config filler)
                  steps)) /\
  In ("ip_bbox" ++ fmt_d j)
     (produced (List.flat_map
                  (step_layers Array lstm_accepts_tie net_config filler)
                  steps)) /\
  In ("ip_soft_conf" ++ fmt_d j)
     (List.map layer_name
        (List.flat_map
           (step_layers Array lstm_accepts_tie net_config filler) steps)) /\
  In ("ip_bbox" ++ fmt_d j)
     (List.map layer_name
        (List.flat_map
           (step_layers Array lstm_accepts_tie net_config filler) steps)).
Proof.
  induction steps as [|s rest IH]; intros Hj; [contradiction|].
  change (List.flat_map
            (step_layers Array lstm_accepts_tie net_config filler)
            (s :: rest))
    with (step_layers Array lstm_accepts_tie net_config filler s ++
          List.flat_map
            (step_layers Array lstm_accepts_tie net_config filler)
            rest)%list.
  rewrite produced_app, List.map_app, !List.in_app_iff.
  destruct Hj as [->|Hj].
  - split; [|split; [|split]]; left; simpl; tauto.
  - destruct (IH Hj) as [H1 [H2 [H3 H4]]]. split; [|split; [|split]];
      now right.
Qed.

Lemma scaled_name (mult : num) (g : GLayer) :
  g_name (scaled mult g) = g_name g.
Proof. unfold scaled. destruct (_ || _); reflexivity. Qed.

Lemma set_first_bottom_names (gl gl' : list GLayer) :
  set_first_bottom gl = Done gl' ->
  List.map g_name gl' = List.map g_name gl.
Proof.
  destruct gl as [|g rest]; simpl; [discriminate|].
  destruct (g_bottom g); [discriminate|].
  intros H. injection H as <-. reflexivity.
Qed.

Lemma emitted_reaches_output (mult : num) (gl : list GLayer) :
  In "inception_5b/output" (List.map g_name gl) ->
  In "inception_5b/output" (List.map g_name (emitted mult gl)).
Proof.
  induction gl as [|g rest IH]; simpl; [tauto|].
  intros [E|H].
  - rewrite E. simpl. left. rewrite scaled_name. exact E.
  - destruct (contains "loss" (g_name g)); [now apply IH|].
    simpl. rewrite scaled_name.
    destruct (g_name g =? "inception_5b/output") eqn:Eq.
    + left. now apply String.eqb_eq.
    + right. now apply IH.
Qed.

Lemma produced_googlenet (gs : list GLayer) (name : string) :
  In name (List.map g_name gs) ->
  In name (produced (List.map (@GoogleNet Array) gs)).
Proof.
  induction gs as [|g gs IH]; simpl; [tauto|].
  intros [E|H]; [now left|]. right.
  apply List.in_or_app. right. now apply IH.
Qed.

Ltac in_avail :=
  simpl; repeat (rewrite List.in_app_iff; simpl); tauto.

Lemma forward_layers_wired (input_data : InputData Array)
    (net_config : ForwardConfig) (deploy : bool) (google : list GLayer)
    (flags bxs hidden mem : Array) :
  In "inception_5b/output" (List.map g_name google) ->
  wired_from nil
    (forward_layers Array lstm_accepts_tie input_data net_config deploy
       google flags bxs hidden mem).
Proof.
  intros Hout. unfold forward_layers.
  set (filler := mkFiller "uniform" (init_range net_config)).
  set (steps := py_range (max_len net_config)).
  set (A := (NumpyData "image" (image input_data)
             :: List.map GoogleNet google)).
  assert (HA : In "inception_5b/output" (produced A)).
  { unfold A.
    change (produced (NumpyData "image" (image input_data)
                      :: List.map GoogleNet google))
      with ("image" :: produced (List.map (@GoogleNet Array) google)).
    right. now apply produced_googlenet. }
  unfold A in HA. simpl in HA.
  assert (Hsteps : forall j, In j steps ->
            In ("ip_conf" ++ fmt_d j)
              (produced (List.flat_map
                 (step_layers Array lstm_accepts_tie net_config filler)
                 steps)) /\
            In ("ip_bbox" ++ fmt_d j)
              (produced (List.flat_map
                 (step_layers Array lstm_accepts_tie net_config filler)
                 steps))).
  { intros j Hj.
    destruct (step_names_produced net_config filler steps j Hj)
      as [H1 [H2 _]]. now split. }
  set (E := List.flat_map
              (step_layers Array lstm_accepts_tie net_config filler) steps)
    in *.
  apply wired_from_app.
  { unfold A. simpl. split; [right; intros b []|].
    apply wired_from_googlenet. }
  apply wired_from_app.
  { simpl. split; [right|split; [right|split; [right|exact I]]];
      intros b Hb; simpl in Hb;
      repeat (destruct Hb as [<-|Hb]; [|]); try contradiction; in_avail. }
  apply wired_from_app.
  { destruct deploy; simpl; [exact I|].
    split; [right; intros b []|]. split; [right; intros b []|exact I]. }
  apply wired_from_app.
  { simpl. split; [right; intros b []|].
    split; [right; intros b []|exact I]. }
  apply wired_from_app.
  { apply (wired_steps net_config filler (Z.to_nat (max_len net_config)) 0).
    - in_avail.
    - simpl. in_avail.
    - simpl. in_avail. }
  apply wired_from_app.
  { simpl. split; [right|split; [right|exact I]];
      intros b Hb; apply List.in_map_iff in Hb;
      destruct Hb as [j [<- Hj]]; destruct (Hsteps j Hj) as [H1 H2];
      simpl in H1, H2; in_avail. }
  destruct deploy; simpl; [exact I|].
  split; [right|split; [right|exact I]];
    intros b Hb; simpl in Hb;
    repeat (destruct Hb as [<-|Hb]; [|]); try contradiction; in_avail.
Qed.

(** X17: when [googlenet_layers()] has a layer named
    "inception_5b/output" and [forward] returns, no layer it has forwarded
    after the GoogLeNet part reads a blob that is not the name or a
    declared top of a layer forwarded before it: the recurrent steps, the
    two concatenations and the losses are wired to blobs that exist. *)
Theorem forward_well_wired (input_data : InputData Array)
    (net_config : ForwardConfig) (deploy : bool)
    (net net' : ApolloNet Array)
    (r : option (list Array * list Array)) :
  In "inception_5b/output" (List.map g_name googlenet_layers) ->
  forward Array run_layer np_shape np_reshape np_zeros googlenet_layers
    lstm_accepts_tie input_data net_config deploy net = Done (r, net') ->
  well_wired (layers net').
Proof.
  intros Hout H. apply forward_layers_spec in H.
  destruct H as [gl [flags [bxs [hidden [mem [Hgl [-> _]]]]]]].
  intros pre l post El.
  assert (Hw := forward_layers_wired input_data net_config deploy
                  (emitted (googlenet_lr_mult net_config) gl)
                  flags bxs hidden mem).
  eapply (wired_from_sound _ nil pre l post); [|exact El].
  apply Hw. apply emitted_reaches_output.
  now rewrite (set_first_bottom_names _ _ Hgl).
Qed.

(** *** The GoogLeNet part *)

Lemma emitted_no_loss (mult : num) (gl : list GLayer) :
  Forall (fun g => contains "loss" (g_name g) = false) (emitted mult gl).
Proof.
  induction gl as [|g rest IH]; simpl; [constructor|].
  destruct (contains "loss" (g_name g)) eqn:E; [exact IH|].
  constructor; [now rewrite scaled_name|].
  destruct (g_name g =? "inception_5b/output"); [constructor|exact IH].
Qed.

Lemma emitted_from (mult : num) (gl : list GLayer) :
  Forall (fun g' => exists g, In g gl /\ g' = scaled mult g)
         (emitted mult gl).
Proof.
  induction gl as [|g rest IH]; simpl; [constructor|].
  assert (IH' : Forall (fun g' => exists g0, (g = g0 \/ In g0 rest) /\
                                             g' = scaled mult g0)
                       (emitted mult rest)).
  { eapply List.Forall_impl; [|exact IH].
    intros g' [g0 [Hin E]]. exists g0. tauto. }
  destruct (contains "loss" (g_name g)); [exact IH'|].
  constructor; [exists g; tauto|].
  destruct (g_name g =? "inception_5b/output"); [constructor|exact IH'].
Qed.

Lemma emitted_output_last (mult : num) (gl : list GLayer) :
  forall pre g post,
    emitted mult gl = (pre ++ g :: post)%list -> post <> nil ->
    g_name g <> "inception_5b/output".
Proof.
  induction gl as [|h rest IH]; intros pre g post E Hpost; simpl in E.
  - destruct pre; discriminate E.
  - destruct (contains "loss" (g_name h)); [now apply (IH pre g post)|].
    destruct (g_name h =? "inception_5b/output") eqn:Eq.
    + destruct pre as [|p pre]; simpl in E.
      * injection E as _ E. now subst post.
      * injection E as _ E. destruct pre; discriminate E.
    + destruct pre as [|p pre]; simpl in E.
      * injection E as <- _. rewrite scaled_name.
        now apply String.eqb_neq.
      * injection E as _ E. now apply (IH pre g post).
Qed.

(** X18: of the layers of [googlenet_layers()], the decapitated GoogLeNet
    forwards none whose name contains "loss" and nothing after the first
    layer named "inception_5b/output", so that layer can only be the last
    one forwarded; every layer it forwards is a layer of the list, with
    its learning-rate multipliers multiplied by [googlenet_lr_mult] when
    its type is "Convolution" or "InnerProduct" and unchanged otherwise. *)
Theorem generate_decapitated_googlenet_forwards (mult : num)
    (net net' : ApolloNet Array) (u : unit) :
  generate_decapitated_googlenet Array run_layer googlenet_layers mult net
    = Done (u, net') ->
  exists gl added,
    set_first_bottom googlenet_layers = Done gl /\
    layers net' = (layers net ++ List.map GoogleNet added)%list /\
    Forall (fun g => contains "loss" (g_name g) = false) added /\
    Forall (fun g' => exists g, In g gl /\ g' = scaled mult g) added /\
    (forall pre g post,
        added = (pre ++ g :: post)%list -> post <> nil ->
        g_name g <> "inception_5b/output").
Proof.
  intros H. apply generate_decapitated_googlenet_layers in H.
  destruct H as [gl [Hgl Hl]].
  exists gl, (emitted mult gl). split; [exact Hgl|]. split; [exact Hl|].
  split; [apply emitted_no_loss|]. split; [apply emitted_from|].
  apply emitted_output_last.
Qed.

Lemma emitted_cut (mult : num) (pre : list GLayer) (out : GLayer)
    (post : list GLayer) :
  g_name out = "inception_5b/output" ->
  emitted mult (pre ++ out :: post) = emitted mult (pre ++ out :: nil).
Proof.
  intros Hout. induction pre as [|g pre IH]; simpl.
  - rewrite Hout. simpl. reflexivity.
  - destruct (contains "loss" (g_name g)); [exact IH|].
    destruct (g_name g =? "inception_5b/output"); [reflexivity|].
    now rewrite IH.
Qed.

(** X19: the loop over the GoogLeNet layers stops at the layer named
    "inception_5b/output": whatever follows that layer in the list is
    never forwarded, and the net ends with that layer. *)
Theorem googlenet_loop_decapitates (mult : num) (pre : list GLayer)
    (out : GLayer) (post : list GLayer) (net net' : ApolloNet Array)
    (u : unit) :
  g_name out = "inception_5b/output" ->
  googlenet_loop Array run_layer mult (pre ++ out :: post) net
    = Done (u, net') ->
  layers net' =
    (layers net ++ List.map GoogleNet (emitted mult (pre ++ out :: nil)))%list
  /\ exists before last,
       layers net' = (before ++ GoogleNet last :: nil)%list /\
       g_name last = "inception_5b/output".
Proof.
  intros Hout H. apply googlenet_loop_layers in H.
  rewrite (emitted_cut mult pre out post Hout) in H. split; [exact H|].
  rewrite H. clear H.
  assert (G : forall l, exists before last,
              (l ++ List.map (@GoogleNet Array)
                      (emitted mult (pre ++ out :: nil)))%list
              = (before ++ GoogleNet last :: nil)%list /\
              g_name last = "inception_5b/output").
  { induction pre as [|g pre IH]; intros l; simpl.
    - rewrite Hout. simpl. exists l, (scaled mult out).
      split; [reflexivity|]. now rewrite scaled_name.
    - destruct (contains "loss" (g_name g)); [apply IH|].
      destruct (g_name g =? "inception_5b/output") eqn:Eq.
      + simpl. exists l, (scaled mult g). split; [reflexivity|].
        rewrite scaled_name. now apply String.eqb_eq.
      + simpl. destruct (IH (l ++ GoogleNet (scaled mult g) :: nil)%list)
          as [before [last [E Hl]]].
        exists before, last. split; [|exact Hl].
        rewrite <- E, <- List.app_assoc. reflexivity. }
  apply G.
Qed.

(** *** The result of [forward] *)

(** X20: in training mode [forward] returns [None]; in deploy mode it
    returns one box array and one confidence array per step, [max_len] of
    each, read from the blobs "ip_bbox<j>" and "ip_soft_conf<j>" in step
    order, and each of these blobs bears the name of a layer forwarded in
    this pass. *)
Theorem forward_result (input_data : InputData Array)
    (net_config : ForwardConfig) (deploy : bool)
    (net net' : ApolloNet Array)
    (r : option (list Array * list Array)) :
  forward Array run_layer np_shape np_reshape np_zeros googlenet_layers
    lstm_accepts_tie input_data net_config deploy net = Done (r, net') ->
  match r with
  | None => deploy = false
  | Some (bbox, conf) =>
      deploy = true /\
      List.length bbox = Z.to_nat (max_len net_config) /\
      List.length conf = Z.to_nat (max_len net_config) /\
      List.map (blobs net')
        (List.map (fun j => "ip_bbox" ++ fmt_d j)
           (py_range (max_len net_config))) = List.map Some bbox /\
      List.map (blobs net')
        (List.map (fun j => "ip_soft_conf" ++ fmt_d j)
           (py_range (max_len net_config))) = List.map Some conf /\
      forall j, In j (py_range (max_len net_config)) ->
        In ("ip_bbox" ++ fmt_d j) (List.map layer_name (layers net')) /\
        In ("ip_soft_conf" ++ fmt_d j) (List.map layer_name (layers net'))
  end.
Proof.
  intros H. apply forward_layers_spec in H.
  destruct H as [gl [flags [bxs [hidden [mem [Hgl [Hl Hr]]]]]]].
  destruct r as [[bbox conf]|]; [|exact Hr].
  destruct Hr as [-> [Hb Hc]]. split; [reflexivity|].
  split.
  { apply (f_equal (@List.length _)) in Hb.
    rewrite !List.length_map, py_range_length in Hb. now symmetry. }
  split.
  { apply (f_equal (@List.length _)) in Hc.
    rewrite !List.length_map, py_range_length in Hc. now symmetry. }
  split; [exact Hb|]. split; [exact Hc|].
  intros j Hj. rewrite Hl. unfold forward_layers. cbv zeta.
  set (filler := mkFiller "uniform" (init_range net_config)).
  destruct (step_names_produced net_config filler
              (py_range (max_len net_config)) j Hj) as [_ [_ [H3 H2]]].
  rewrite !List.map_app, !List.in_app_iff.
  split; do 4 right; left; assumption.
Qed.

(** *** Names of the layers *)

Lemma own_layers_app (l1 l2 : list (layer Array)) :
  own_layers (l1 ++ l2)%list = (own_layers l1 ++ own_layers l2)%list.
Proof. unfold own_layers. apply List.filter_app. Qed.

Lemma own_layers_googlenet (gs : list GLayer) :
  own_layers (List.map (@GoogleNet Array) gs) = nil.
Proof. induction gs as [|g gs IH]; simpl; [reflexivity|exact IH]. Qed.

Lemma own_step_names (net_config : ForwardConfig) (filler : Filler)
    (steps : list Z) :
  List.map layer_name
    (own_layers
       (List.flat_map (step_layers Array lstm_accepts_tie net_config filler)
          steps))
  = List.flat_map step_names steps.
Proof.
  induction steps as [|s rest IH]; [reflexivity|].
  change (List.flat_map
            (step_layers Array lstm_accepts_tie net_config filler)
            (s :: rest))
    with (step_layers Array lstm_accepts_tie net_config filler s ++
          List.flat_map
            (step_layers Array lstm_accepts_tie net_config filler)
            rest)%list.
  change (List.flat_map step_names (s :: rest))
    with (step_names s ++ List.flat_map step_names rest)%list.
  rewrite own_layers_app, List.map_app, IH. reflexivity.
Qed.

Lemma forward_layers_names (input_data : InputData Array)
    (net_config : ForwardConfig) (deploy : bool) (google : list GLayer)
    (flags bxs hidden mem : Array) :
  exists before after,
    List.map layer_name
      (own_layers
         (forward_layers Array lstm_accepts_tie input_data net_config deploy
            google flags bxs hidden mem))
    = (before ++
       List.flat_map step_names (py_range (max_len net_config)) ++
       after)%list /\
    NoDup (before ++ after)%list /\
    incl (before ++ after)%list fixed_names.
Proof.
  unfold forward_layers. cbv zeta.
  rewrite !own_layers_app, !List.map_app, own_step_names.
  change (own_layers (NumpyData "image" (image input_data)
                      :: List.map GoogleNet google))
    with (NumpyData "image" (image input_data)
          :: own_layers (List.map (@GoogleNet Array) google)).
  rewrite own_layers_googlenet.
  destruct deploy; simpl.
  - exists ("image" :: "post_fc7_conv" :: "lstm_fc7_conv" :: "lstm_input"
            :: "lstm_hidden_seed" :: "lstm_mem_seed" :: nil),
           ("score_concat" :: "bbox_concat" :: nil).
    split; [reflexivity|]. split.
    + repeat constructor; simpl; intuition discriminate.
    + intros x Hx. unfold fixed_names. simpl in Hx |- *. tauto.
  - exists ("image" :: "post_fc7_conv" :: "lstm_fc7_conv" :: "lstm_input"
            :: "box_flags" :: "boxes"
            :: "lstm_hidden_seed" :: "lstm_mem_seed" :: nil),
           ("score_concat" :: "bbox_concat" :: "hungarian" :: "box_loss"
            :: nil).
    split; [reflexivity|]. split.
    + repeat constructor; simpl; intuition discriminate.
    + intros x Hx. unfold fixed_names. simpl in Hx |- *. tauto.
Qed.

(** X21: when [forward] returns, the layers it has forwarded outside the
    GoogLeNet part all bear different names, whatever [max_len] is: the
    seven layers of a step are told apart by their prefixes and the steps
    by their number. *)
Theorem forward_names_distinct (input_data : InputData Array)
    (net_config : ForwardConfig) (deploy : bool)
    (net net' : ApolloNet Array)
    (r : option (list Array * list Array)) :
  forward Array run_layer np_shape np_reshape np_zeros googlenet_layers
    lstm_accepts_tie input_data net_config deploy net = Done (r, net') ->
  NoDup (List.map layer_name (own_layers (layers net'))).
Proof.
  intros H. apply forward_layers_spec in H.
  destruct H as [gl [flags [bxs [hidden [mem [_ [-> _]]]]]]].
  destruct (forward_layers_names input_data net_config deploy
              (emitted (googlenet_lr_mult net_config) gl)
              flags bxs hidden mem)
    as [before [after [-> [Hnd Hincl]]]].
  apply NoDup_sandwich.
  - exact Hnd.
  - apply step_names_NoDup, py_range_NoDup.
  - intros x Hx Hfix. apply Hincl in Hfix.
    apply List.in_flat_map in Hx. destruct Hx as [j [_ Hx]].
    unfold step_names in Hx. apply List.in_map_iff in Hx.
    destruct Hx as [p [<- Hp]].
    exact (step_name_not_fixed p _ j Hp Hfix eq_refl).
Qed.

End Facts.

Lemma example_forward_deploy :
  example_forward true
  = Done (Some (tt :: tt :: nil, tt :: tt :: nil), example_result true).
Proof. vm_compute. reflexivity. Qed.

Lemma example_forward_train :
  example_forward false = Done (None, example_result false).
Proof. vm_compute. reflexivity. Qed.


Lemma forward_well_wired_witness :
  well_wired (layers (example_result true)).
Proof.
  apply (forward_well_wired unit example_run_layer example_shape
           example_reshape example_zeros example_googlenet true
           (mkInputData tt tt tt) example_config true example_net
           (example_result true)
           (Some (tt :: tt :: nil, tt :: tt :: nil))).
  - simpl. tauto.
  - vm_compute. reflexivity.
Defined.

Lemma generate_decapitated_googlenet_forwards_witness :
  exists gl added,
    set_first_bottom example_googlenet = Done gl /\
    layers (mkNet
              (List.map GoogleNet
                 (List.firstn 2
                    (emitted (PyFloat 3)
                       (mkGLayer "conv1/7x7_s2" "Convolution"
                          ("image" :: nil) ("conv1/7x7_s2" :: nil)
                          (1 :: 2 :: nil)
                        :: List.tl example_googlenet))))
              (fun _ => Some tt))
    = (layers example_net ++ List.map GoogleNet added)%list /\
    Forall (fun g => contains "loss" (g_name g) = false) added /\
    Forall (fun g' => exists g, In g gl /\ g' = scaled (PyFloat 3) g) added /\
    (forall pre g post,
        added = (pre ++ g :: post)%list -> post <> nil ->
        g_name g <> "inception_5b/output").
Proof.
  apply (generate_decapitated_googlenet_forwards unit example_run_layer
           example_googlenet (PyFloat 3) example_net _ tt).
  vm_compute. reflexivity.
Defined.

Lemma googlenet_loop_decapitates_witness :
  layers (mkNet
            (List.map GoogleNet
               (emitted (PyFloat 3) (List.firstn 3 example_googlenet)))
            (fun _ => Some tt))
  = (layers example_net ++
     List.map GoogleNet
       (emitted (PyFloat 3)
          (List.firstn 2 example_googlenet ++
           List.nth 2 example_googlenet
             (mkGLayer "" "" nil nil nil) :: nil)))%list
  /\ exists before last,
       layers (mkNet
                 (List.map GoogleNet
                    (emitted (PyFloat 3) (List.firstn 3 example_googlenet)))
                 (fun _ => Some tt))
       = (before ++ GoogleNet last :: nil)%list /\
       g_name last = "inception_5b/output".
Proof.
  apply (googlenet_loop_decapitates unit example_run_layer (PyFloat 3)
           (List.firstn 2 example_googlenet)
           (List.nth 2 example_googlenet (mkGLayer "" "" nil nil nil))
           (List.skipn 3 example_googlenet) example_net _ tt).
  - reflexivity.
  - vm_compute. reflexivity.
Defined.

Lemma forward_result_witness :
  true = true /\
  List.length (tt :: tt :: nil) = Z.to_nat (max_len example_config) /\
  List.length (tt :: tt :: nil) = Z.to_nat (max_len example_config) /\
  List.map (blobs (example_result true))
    (List.map (fun j => "ip_bbox" ++ fmt_d j)
       (py_range (max_len example_config)))
  = List.map Some (tt :: tt :: nil) /\
  List.map (blobs (example_result true))
    (List.map (fun j => "ip_soft_conf" ++ fmt_d j)
       (py_range (max_len example_config)))
  = List.map Some (tt :: tt :: nil) /\
  forall j, In j (py_range (max_len example_config)) ->
    In ("ip_bbox" ++ fmt_d j)
       (List.map layer_name (layers (example_result true))) /\
    In ("ip_soft_conf" ++ fmt_d j)
       (List.map layer_name (layers (example_result true))).
Proof.
  apply (forward_result unit example_run_layer example_shape
           example_reshape example_zeros example_googlenet true
           (mkInputData tt tt tt) example_config true example_net
           (example_result true)
           (Some (tt :: tt :: nil, tt :: tt :: nil))).
  vm_compute. reflexivity.
Defined.

Lemma forward_names_distinct_witness :
  NoDup (List.map layer_name (own_layers (layers (example_result false)))).
Proof.
  apply (forward_names_distinct unit example_run_layer example_shape
           example_reshape example_zeros example_googlenet true
           (mkInputData tt tt tt) example_config false example_net
           (example_result false) None).
  vm_compute. reflexivity.
Defined.

End NetFacts.
